(** * HushApiClient: a shallow embedding of examples/clients/python_client.py

    The client is a thin facade over a [requests.Session] whose HTTP adapter
    carries a urllib3 [Retry] policy.  The embedding follows the Python text:
    dictionaries are finite maps, [self] is threaded through a small
    state-and-exception monad, and the session is a function from the request
    and the answers of the wire to what [session.request] returns or raises. *)

From stdpp Require Import gmap strings list fin_maps pretty.
From Stdlib Require Import Ascii String ZArith QArith Lia Lqa.

Set Warnings "-register-all".

Local Open Scope Z_scope.
Local Open Scope string_scope.

(** ** Python values *)

(** The values that travel as [data: Any] and as decoded JSON bodies. *)
Inductive pyval : Type :=
| PNone
| PBool (b : bool)
| PInt (z : Z)
| PStr (s : string)
| PList (l : list pyval)
| PDict (kvs : list (string * pyval)).

(** Python truth value testing, as used by [if data] and [if self.token]. *)
Definition truthy (v : pyval) : bool :=
  match v with
  | PNone => false
  | PBool b => b
  | PInt z => negb (z =? 0)%Z
  | PStr s => negb (String.eqb s "")
  | PList l => match l with [] => false | _ => true end
  | PDict kvs => match kvs with [] => false | _ => true end
  end.

(** [if self.token]: the attribute holds [None] or a [str]. *)
Definition token_truthy (t : option string) : bool :=
  match t with
  | None => false
  | Some s => truthy (PStr s)
  end.

(** [s.rstrip(ch)]: drop every trailing occurrence of [ch]. *)
Fixpoint rstrip (ch : ascii) (s : string) : string :=
  match s with
  | EmptyString => EmptyString
  | String c s' =>
      match rstrip ch s' with
      | EmptyString => if Ascii.eqb c ch then EmptyString else String c EmptyString
      | r => String c r
      end
  end.

(** [n] copies of the character [ch]. *)
Fixpoint replicate_char (n : nat) (ch : ascii) : string :=
  match n with
  | O => EmptyString
  | S n' => String ch (replicate_char n' ch)
  end.

(** [x in xs] for a list of strings, as in [method in ['POST', 'PUT', 'PATCH']]. *)
Definition str_in (x : string) (xs : list string) : bool :=
  existsb (String.eqb x) xs.

(** [x in xs] for a list of status codes. *)
Definition int_in (x : Z) (xs : list Z) : bool :=
  existsb (Z.eqb x) xs.

(** ** Data classes of the client *)

Record ApiResponse : Type := mkApiResponse {
  api_status_code : Z;
  api_data : pyval;
  api_headers : gmap string string;
  api_elapsed_ms : Q
}.

Record HushApiError : Type := mkHushApiError {
  err_message : string;
  err_status_code : option Z;
  err_response_data : option pyval
}.

(** ** The HTTP library *)

(** The keyword arguments handed to [session.request]. *)
Record Request : Type := mkRequest {
  req_method : string;
  req_url : string;
  req_json : option pyval;
  req_headers : gmap string string;
  req_params : option (gmap string string);
  req_timeout : Z
}.

(** A [requests.Response].  [resp_json] is what [response.json()] returns,
    [None] standing for a raised [json.JSONDecodeError]; [resp_retry_after] is
    the parsed [Retry-After] header, when the server sent one; [resp_next]
    is the URL and the headers of the request that requests prepares from a
    Location header ([Response.next]), when there is one. *)
Record Response : Type := mkResponse {
  resp_status_code : Z;
  resp_reason : string;
  resp_text : string;
  resp_json : option pyval;
  resp_headers : gmap string string;
  resp_elapsed_us : Z;
  resp_retry_after : option Z;
  resp_next : option (string * gmap string string)
}.

(** [Response.ok]: [raise_for_status] raises exactly for 400 <= status < 600. *)
Definition ok (r : Response) : bool :=
  negb ((400 <=? resp_status_code r)%Z && (resp_status_code r <? 600)%Z).

(** The [requests.exceptions.RequestException] subclasses the session
    raises.  [exc_str] is the text of the cause; the pool and the URL that
    requests prints around it when retries run out are not spelled out. *)
Inductive exc_class : Type :=
| ConnectionError
| ReadTimeout
| RetryError
| InvalidURL
| TooManyRedirects.

Record RequestException : Type := mkRequestException {
  exc_kind : exc_class;
  exc_str : string
}.

(** What one call of [session.request] does. *)
Inductive outcome : Type :=
| Returned (r : Response)
| Raised (e : RequestException).

(** What one attempt on the wire yields: a response, a failure to connect,
    a failure while reading, or nothing at all because requests refuses the
    request before sending it (a URL without scheme or host, say). *)
Inductive wire_event : Type :=
| Responds (r : Response)
| ConnectFails (msg : string)
| ReadFails (msg : string)
| Unsendable (msg : string).

(** The fields of [urllib3.util.retry.Retry] that the client sets or that
    decide a retry; the others keep the library's defaults. *)
Record Retry : Type := mkRetry {
  total : nat;
  backoff_factor : Z;
  status_forcelist : list Z;
  allowed_methods : list string;
  respect_retry_after_header : bool
}.

Definition DEFAULT_ALLOWED_METHODS : list string :=
  ["DELETE"; "GET"; "HEAD"; "OPTIONS"; "PUT"; "TRACE"].

Definition RETRY_AFTER_STATUS_CODES : list Z := [413; 429; 503].

Definition DEFAULT_BACKOFF_MAX : Z := 120.

(** [Retry._is_method_retryable]; requests has upper-cased the method. *)
Definition is_method_retryable (p : Retry) (method : string) : bool :=
  match allowed_methods p with
  | [] => true
  | ms => str_in method ms
  end.

(** [Retry.is_retry]. *)
Definition is_retry (p : Retry) (method : string) (status : Z)
    (has_retry_after : bool) : bool :=
  if negb (is_method_retryable p method) then false
  else if int_in status (status_forcelist p) then true
  else match total p with O => false | S _ => true end
       && respect_retry_after_header p
       && has_retry_after
       && int_in status RETRY_AFTER_STATUS_CODES.

(** [Retry.get_backoff_time] after [errors] consecutive failed attempts. *)
Definition get_backoff_time (p : Retry) (errors : nat) : Z :=
  if (errors <=? 1)%nat then 0
  else Z.min DEFAULT_BACKOFF_MAX (backoff_factor p * 2 ^ (Z.of_nat errors - 1)).

(** [Retry.sleep]: a truthy [Retry-After] wins over the backoff. *)
Definition sleep_time (p : Retry) (errors : nat) (r : option Response) : Z :=
  match r with
  | Some resp =>
      match resp_retry_after resp with
      | Some s => if respect_retry_after_header p && negb (s =? 0)%Z then s
                  else get_backoff_time p errors
      | None => get_backoff_time p errors
      end
  | None => get_backoff_time p errors
  end.

Arguments sleep_time : simpl never.

(** What the session reports about one call: the outcome, the number of
    attempts the wire saw, and the pauses slept between them. *)
Record session_trace : Type := mkTrace {
  tr_outcome : outcome;
  tr_attempts : nat;
  tr_sleeps : list Z
}.

Definition is_Some_b {A} (o : option A) : bool :=
  match o with Some _ => true | None => false end.

(** The [Retry] object the loop holds when [left] retries remain. *)
Definition with_total (left : nat) (p : Retry) : Retry :=
  mkRetry left (backoff_factor p) (status_forcelist p)
    (allowed_methods p) (respect_retry_after_header p).

(** [HTTPConnectionPool.urlopen] under [HTTPAdapter.send]: [left] is the
    [total] of the current [Retry] object, [attempt] counts the attempts
    already made, [wire k] answers attempt number [k].  [Retry.increment]
    takes one from [total] and raises [MaxRetryError] once it falls below
    zero; the adapter turns that into [RetryError] (a status was the cause)
    or [ConnectionError] (the network was).  A request that cannot be sent
    raises without an attempt. *)
Fixpoint urlopen (p : Retry) (method : string) (wire : nat -> wire_event)
    (left : nat) (attempt : nat) (sleeps : list Z) : session_trace :=
  match wire attempt with
  | Responds r =>
      if is_retry (with_total left p) method (resp_status_code r)
           (is_Some_b (resp_retry_after r))
      then
        match left with
        | O =>
            mkTrace (Raised (mkRequestException RetryError
                       ("too many " ++ pretty (resp_status_code r)
                        ++ " error responses")))
              (S attempt) sleeps
        | S left' =>
            urlopen p method wire left' (S attempt)
              (sleeps ++ [sleep_time p (S attempt) (Some r)])
        end
      else mkTrace (Returned r) (S attempt) sleeps
  | ConnectFails msg =>
      match left with
      | O => mkTrace (Raised (mkRequestException ConnectionError msg))
               (S attempt) sleeps
      | S left' =>
          urlopen p method wire left' (S attempt)
            (sleeps ++ [sleep_time p (S attempt) None])
      end
  | ReadFails msg =>
      if negb (is_method_retryable p method)
      then mkTrace (Raised (mkRequestException ReadTimeout msg))
             (S attempt) sleeps
      else
        match left with
        | O => mkTrace (Raised (mkRequestException ConnectionError msg))
                 (S attempt) sleeps
        | S left' =>
            urlopen p method wire left' (S attempt)
              (sleeps ++ [sleep_time p (S attempt) None])
        end
  | Unsendable msg =>
      mkTrace (Raised (mkRequestException InvalidURL msg)) attempt sleeps
  end.

(** [str.upper] on the ASCII letters, which are all an HTTP method is made
    of; requests upper-cases the method before anything else looks at it. *)
Definition upper_ascii (c : ascii) : ascii :=
  let n := nat_of_ascii c in
  if (97 <=? n)%nat && (n <=? 122)%nat then ascii_of_nat (n - 32) else c.

Fixpoint py_upper (s : string) : string :=
  match s with
  | EmptyString => EmptyString
  | String c s' => String (upper_ascii c) (py_upper s')
  end.

Definition REDIRECT_STATI : list Z := [301; 302; 303; 307; 308].

(** [Session.get_redirect_target]: where a response sends the client on. *)
Definition redirect_target (r : Response) : option (string * gmap string string) :=
  if int_in (resp_status_code r) REDIRECT_STATI then resp_next r else None.

(** [SessionRedirectMixin.rebuild_method]. *)
Definition rebuild_method (method : string) (status : Z) : string :=
  let method :=
    if (status =? 303)%Z && negb (String.eqb method "HEAD") then "GET" else method in
  let method :=
    if (status =? 302)%Z && negb (String.eqb method "HEAD") then "GET" else method in
  if (status =? 301)%Z && String.eqb method "POST" then "GET" else method.

(** The request [resolve_redirects] sends after the response [r] to [req]:
    the method rebuilt, the body kept only for 307 and 308. *)
Definition next_request (req : Request) (r : Response)
    (next : string * gmap string string) : Request :=
  {| req_method := rebuild_method (py_upper (req_method req)) (resp_status_code r);
     req_url := fst next;
     req_json := if int_in (resp_status_code r) [307; 308]%Z
                 then req_json req else None;
     req_headers := snd next;
     req_params := None;
     req_timeout := req_timeout req |}.

(** [Session.send] with [resolve_redirects]: every request goes through the
    adapter with the full retry budget, and a redirect is followed while
    [hops] allows; [seen] and [slept] gather the attempts and pauses of the
    requests before. *)
Fixpoint follow (p : Retry) (wire : Request -> nat -> wire_event)
    (hops : nat) (req : Request) (seen : nat) (slept : list Z) : session_trace :=
  let tr := urlopen p (py_upper (req_method req)) (wire req) (total p) 0 [] in
  match tr_outcome tr with
  | Raised e => mkTrace (Raised e) (seen + tr_attempts tr) (slept ++ tr_sleeps tr)
  | Returned r =>
      match redirect_target r with
      | None => mkTrace (Returned r) (seen + tr_attempts tr) (slept ++ tr_sleeps tr)
      | Some next =>
          match hops with
          | O =>
              mkTrace (Raised (mkRequestException TooManyRedirects
                                 "Exceeded 30 redirects."))
                (seen + tr_attempts tr) (slept ++ tr_sleeps tr)
          | S hops' =>
              follow p wire hops' (next_request req r next)
                (seen + tr_attempts tr) (slept ++ tr_sleeps tr)
          end
      end
  end.

Definition DEFAULT_REDIRECT_LIMIT : nat := 30.

(** [session.request] through the mounted adapter. *)
Definition session_request (p : Retry) (wire : Request -> nat -> wire_event)
    (req : Request) : session_trace :=
  follow p wire DEFAULT_REDIRECT_LIMIT req 0 [].

(** ** The client *)

Record HushApiClient : Type := mkClient {
  base_url : string;
  timeout : Z;
  token : option string;
  session : Retry
}.

(** [Retry(total=3, backoff_factor=1, status_forcelist=[...])]. *)
Definition retry_strategy : Retry :=
  {| total := 3;
     backoff_factor := 1;
     status_forcelist := [429; 500; 502; 503; 504];
     allowed_methods := DEFAULT_ALLOWED_METHODS;
     respect_retry_after_header := true |}.

(** [HushApiClient.__init__]. *)
Definition __init__ (base_url : string) (timeout : Z) : HushApiClient :=
  {| base_url := rstrip "/" base_url;
     timeout := timeout;
     token := None;
     session := retry_strategy |}.

Definition default_client : HushApiClient := __init__ "http://localhost:8080" 30.

(** The state a call runs in: the client object and, for the observer on the
    transport side, the calls of [session.request] made so far. *)
Record state : Type := mkState {
  st_self : HushApiClient;
  st_sent : list Request
}.

(** A call either returns or raises [HushApiError]. *)
Inductive result (A : Type) : Type :=
| Ok (a : A)
| Err (e : HushApiError).
Arguments Ok {A} a.
Arguments Err {A} e.

Definition M (A : Type) : Type := state -> result A * state.

Definition ret {A} (a : A) : M A := fun s => (Ok a, s).

Definition raise {A} (e : HushApiError) : M A := fun s => (Err e, s).

Definition bind {A B} (m : M A) (k : A -> M B) : M B :=
  fun s =>
    match m s with
    | (Ok a, s') => k a s'
    | (Err e, s') => (Err e, s')
    end.

Notation "x <- m ;; k" := (bind m (fun x => k))
  (at level 100, m at next level, right associativity).

Definition get_self : M HushApiClient := fun s => (Ok (st_self s), s).

Definition set_token (t : option string) : M unit :=
  fun s =>
    (Ok tt,
     {| st_self := {| base_url := base_url (st_self s);
                      timeout := timeout (st_self s);
                      token := t;
                      session := session (st_self s) |};
        st_sent := st_sent s |}).

Section Facade.

(** The server and the network: what attempt number [k] at a request yields. *)
Variable wire : Request -> nat -> wire_event.

(** [self.session.request(...)]: the call is seen by the transport. *)
Definition do_request (req : Request) : M outcome :=
  fun s =>
    (Ok (tr_outcome (session_request (session (st_self s)) wire req)),
     {| st_self := st_self s; st_sent := st_sent s ++ [req] |}).

(** [HushApiClient.set_auth_token]. *)
Definition set_auth_token (token : string) : M unit :=
  set_token (Some token).

(** [HushApiClient._get_headers]. *)
Definition _get_headers (self : HushApiClient)
    (additional_headers : option (gmap string string)) : gmap string string :=
  let headers : gmap string string :=
    <["User-Agent" := "HushApiClient/1.0.0 (Python)"]>
      {["Content-Type" := "application/json"]} in
  let headers :=
    match token self with
    | Some t => if token_truthy (Some t)
                then <["Authorization" := "Bearer " ++ t]> headers
                else headers
    | None => headers
    end in
  match additional_headers with
  | Some extra => if bool_decide (extra = ∅) then headers else extra ∪ headers
  | None => headers
  end.

(** The [json=] argument: [data if data and method in [...] else None]. *)
Definition json_arg (method : string) (data : pyval) : option pyval :=
  if truthy data && str_in method ["POST"; "PUT"; "PATCH"]
  then Some data else None.

(** The keyword arguments [_make_request] hands to the session. *)
Definition build_request (self : HushApiClient) (method endpoint : string)
    (data : pyval) (headers params : option (gmap string string)) : Request :=
  {| req_method := method;
     req_url := base_url self ++ endpoint;
     req_json := json_arg method data;
     req_headers := _get_headers self headers;
     req_params := params;
     req_timeout := timeout self |}.

(** [response.json()], falling back on [response.text]. *)
Definition decode (response : Response) : pyval :=
  match resp_json response with
  | Some v => v
  | None => PStr (resp_text response)
  end.

Definition to_api_response (response : Response) : ApiResponse :=
  {| api_status_code := resp_status_code response;
     api_data := decode response;
     api_headers := resp_headers response;
     api_elapsed_ms := Qmake (resp_elapsed_us response) 1000 |}.

(** [HushApiClient._make_request]. *)
Definition _make_request (method endpoint : string) (data : pyval)
    (headers params : option (gmap string string)) : M ApiResponse :=
  self <- get_self ;;
  out <- do_request (build_request self method endpoint data headers params) ;;
  match out with
  | Returned response =>
      let response_data := decode response in
      let api_response := to_api_response response in
      if ok response then ret api_response
      else
        let error_msg := "HTTP " ++ pretty (resp_status_code response)
                         ++ ": " ++ resp_reason response in
        raise (mkHushApiError error_msg (Some (resp_status_code response))
                 (Some response_data))
  | Raised e =>
      raise (mkHushApiError ("网络错误: " ++ exc_str e) None None)
  end.

Definition health_check : M pyval :=
  response <- _make_request "GET" "/health" PNone None None ;;
  ret (api_data response).

Definition get_user_info : M pyval :=
  response <- _make_request "GET" "/user" PNone None None ;;
  ret (api_data response).

Definition get_users : M pyval :=
  response <- _make_request "GET" "/api/users" PNone None None ;;
  ret (api_data response).

Definition create_user (user_data : pyval) : M pyval :=
  response <- _make_request "POST" "/api/users" user_data None None ;;
  ret (api_data response).

Definition get_admin_dashboard : M pyval :=
  response <- _make_request "GET" "/admin/dashboard" PNone None None ;;
  ret (api_data response).

Definition cors_preflight_check (endpoint method : string) : M ApiResponse :=
  let headers : gmap string string :=
    <["Access-Control-Request-Headers" := "Content-Type, Authorization"]>
      {["Access-Control-Request-Method" := method]} in
  _make_request "OPTIONS" endpoint PNone (Some headers) None.

(** Python is untyped: a method hands back [None], the decoded data, or the
    [ApiResponse] object itself. *)
Inductive retval : Type :=
| RetNone
| RetData (v : pyval)
| RetResponse (r : ApiResponse).

(** The operations of the facade, to speak about all of them at once. *)
Inductive facade_op : Type :=
| OpSetAuthToken (token : string)
| OpHealthCheck
| OpGetUserInfo
| OpGetUsers
| OpCreateUser (user_data : pyval)
| OpGetAdminDashboard
| OpCorsPreflightCheck (endpoint method : string)
| OpMakeRequest (method endpoint : string) (data : pyval)
    (headers params : option (gmap string string)).

Definition call (op : facade_op) : M retval :=
  match op with
  | OpSetAuthToken t => _ <- set_auth_token t ;; ret RetNone
  | OpHealthCheck => v <- health_check ;; ret (RetData v)
  | OpGetUserInfo => v <- get_user_info ;; ret (RetData v)
  | OpGetUsers => v <- get_users ;; ret (RetData v)
  | OpCreateUser d => v <- create_user d ;; ret (RetData v)
  | OpGetAdminDashboard => v <- get_admin_dashboard ;; ret (RetData v)
  | OpCorsPreflightCheck e m => r <- cors_preflight_check e m ;; ret (RetResponse r)
  | OpMakeRequest m e d h p => r <- _make_request m e d h p ;; ret (RetResponse r)
  end.

(** A caller running operations one after the other, catching what they raise. *)
Fixpoint run_ops (ops : list facade_op) (s : state) : state :=
  match ops with
  | [] => s
  | op :: ops' => run_ops ops' (snd (call op s))
  end.

End Facade.

(** ** Vocabulary of the statements *)

(** The request an operation hands to the session, read off the method bodies;
    [call_runs] below shows that this is what [call] sends. *)
Definition request_of (self : HushApiClient) (op : facade_op) : option Request :=
  match op with
  | OpSetAuthToken _ => None
  | OpHealthCheck => Some (build_request self "GET" "/health" PNone None None)
  | OpGetUserInfo => Some (build_request self "GET" "/user" PNone None None)
  | OpGetUsers => Some (build_request self "GET" "/api/users" PNone None None)
  | OpCreateUser d => Some (build_request self "POST" "/api/users" d None None)
  | OpGetAdminDashboard =>
      Some (build_request self "GET" "/admin/dashboard" PNone None None)
  | OpCorsPreflightCheck e m =>
      Some (build_request self "OPTIONS" e PNone
              (Some (<["Access-Control-Request-Headers" := "Content-Type, Authorization"]>
                       {["Access-Control-Request-Method" := m]})) None)
  | OpMakeRequest m e d h p => Some (build_request self m e d h p)
  end.

(** How the outcome of the session call surfaces from [_make_request]. *)
Definition surface (out : outcome) : result ApiResponse :=
  match out with
  | Returned r =>
      if ok r then Ok (to_api_response r)
      else Err (mkHushApiError
                  ("HTTP " ++ pretty (resp_status_code r) ++ ": " ++ resp_reason r)
                  (Some (resp_status_code r)) (Some (decode r)))
  | Raised e => Err (mkHushApiError ("网络错误: " ++ exc_str e) None None)
  end.

(** What an operation hands back from the [ApiResponse] of its request. *)
Definition hand_back (op : facade_op) (r : ApiResponse) : retval :=
  match op with
  | OpSetAuthToken _ => RetNone
  | OpCorsPreflightCheck _ _ | OpMakeRequest _ _ _ _ _ => RetResponse r
  | _ => RetData (api_data r)
  end.

Definition map_result {A B} (f : A -> B) (r : result A) : result B :=
  match r with
  | Ok a => Ok (f a)
  | Err e => Err e
  end.

(** The decoded body inside a returned value. *)
Definition payload (v : retval) : option pyval :=
  match v with
  | RetNone => None
  | RetData d => Some d
  | RetResponse r => Some (api_data r)
  end.

Definition is_setter (op : facade_op) : bool :=
  match op with
  | OpSetAuthToken _ => true
  | _ => false
  end.

(** The caller passes an [Authorization] header of its own. *)
Definition overrides_auth (op : facade_op) : bool :=
  match op with
  | OpMakeRequest _ _ _ (Some h) _ => is_Some_b (h !! "Authorization")
  | _ => false
  end.

Definition with_token (t : option string) (self : HushApiClient) : HushApiClient :=
  {| base_url := base_url self;
     timeout := timeout self;
     token := t;
     session := session self |}.

Definition is_2xx (status : Z) : bool :=
  (200 <=? status)%Z && (status <? 300)%Z.


(** The requests a run has added to the transport's record. *)
Definition newly_sent (before after : state) : list Request :=
  drop (List.length (st_sent before)) (st_sent after).

(** ** Sample servers *)

(** A response with the given status and JSON body, nothing else of note. *)
Definition json_response (status : Z) (reason : string) (body : pyval) : Response :=
  {| resp_status_code := status;
     resp_reason := reason;
     resp_text := "";
     resp_json := Some body;
     resp_headers := {["Content-Type" := "application/json"]};
     resp_elapsed_us := 1500;
     resp_retry_after := None;
     resp_next := None |}.

(** A response whose body is not JSON. *)
Definition text_response (status : Z) (reason body : string) : Response :=
  {| resp_status_code := status;
     resp_reason := reason;
     resp_text := body;
     resp_json := None;
     resp_headers := ∅;
     resp_elapsed_us := 1500;
     resp_retry_after := None;
     resp_next := None |}.

(** A server that gives the same answer to every attempt. *)
Definition always (r : Response) : Request -> nat -> wire_event :=
  fun _ _ => Responds r.

(** A host nobody listens on. *)
Definition refused : Request -> nat -> wire_event :=
  fun _ _ => ConnectFails "Connection refused".

Definition fresh : state := {| st_self := default_client; st_sent := [] |}.

Definition health_ok : Response :=
  json_response 200 "OK" (PDict [("status", PStr "ok")]).

Definition not_modified : Response := text_response 304 "Not Modified" "".


Definition unauthorized : Response :=
  json_response 401 "Unauthorized" (PDict [("error", PStr "missing token")]).

Definition server_error : Response :=
  text_response 500 "Internal Server Error" "boom".

(** A server that knows /health and wants a token for the rest. *)
Definition health_only : Request -> nat -> wire_event :=
  fun req _ =>
    if String.eqb (req_url req) "http://localhost:8080/health"
    then Responds health_ok else Responds unauthorized.

(** A callable with a memory: it asks for the users first, and for the
    health of the server from then on. *)
Definition users_then_health : M pyval :=
  fun s =>
    match st_sent s with
    | [] => get_users health_only s
    | _ => health_check health_only s
    end.

Definition get_health : Request :=
  build_request default_client "GET" "/health" PNone None None.

Definition post_user : Request :=
  build_request default_client "POST" "/api/users"
    (PDict [("name", PStr "zhangsan")]) None None.

(** ** The demonstration code *)

(** [count] integers from [lo] upwards. *)
Fixpoint range_from (lo : Z) (count : nat) : list Z :=
  match count with
  | O => []
  | S c => lo :: range_from (lo + 1) c
  end.

(** [range(lo, hi)]: empty when [hi <= lo]. *)
Definition py_range (lo hi : Z) : list Z :=
  range_from lo (Z.to_nat (hi - lo)).

(** What escapes [retry_request] besides [HushApiError]. *)
Inductive py_exception : Type :=
| ValueError (msg : string)
| OverflowError (msg : string).

(** How [retry_request] ends: as [func] does, or in an exception of the
    sleeping. *)
Inductive retry_result (A : Type) : Type :=
| Finished (r : result (option A))
| Crashed (exc : py_exception).
Arguments Finished {A} r.
Arguments Crashed {A} exc.

(** [delay * (2 ** (attempt - 1))] for a float [delay]: the power is an
    [int], which must fit a float to be multiplied. *)
Definition power_error (attempt : Z) : option py_exception :=
  if (1024 <=? attempt - 1)%Z
  then Some (OverflowError "int too large to convert to float")
  else None.

(** [time.sleep(secs)] takes what fits 64 bits of nanoseconds and is not
    negative. *)
Definition sleep_error (secs : Q) : option py_exception :=
  if negb (Qle_bool (Qmult secs (inject_Z (10 ^ 9))) (inject_Z (2 ^ 63)))
     || negb (Qle_bool (inject_Z (- 2 ^ 63)) (Qmult secs (inject_Z (10 ^ 9))))
  then Some (OverflowError "timestamp too large to convert to C _PyTime_t")
  else if negb (Qle_bool 0 secs)
  then Some (ValueError "sleep length must be non-negative")
  else None.

(** The [for] loop of [retry_request] over the attempt numbers still to run:
    a call that returns ends the loop, a call that raises [HushApiError] is
    re-raised at the last attempt and slept over otherwise.  [slept] gathers
    the arguments of the calls of [time.sleep] that returned; the lines
    printed are left out. *)
Fixpoint retry_attempts {A} (func : M A) (max_retries : Z) (delay : Q)
    (attempts : list Z) (slept : list Q) (s : state)
    : retry_result A * list Q * state :=
  match attempts with
  | [] => (Finished (Ok None), slept, s)
  | attempt :: rest =>
      match func s with
      | (Ok v, s') => (Finished (Ok (Some v)), slept, s')
      | (Err e, s') =>
          if (attempt =? max_retries)%Z then (Finished (Err e), slept, s')
          else
            match power_error attempt with
            | Some exc => (Crashed exc, slept, s')
            | None =>
                let wait_time := Qmult delay (inject_Z (2 ^ (attempt - 1))) in
                match sleep_error wait_time with
                | Some exc => (Crashed exc, slept, s')
                | None =>
                    retry_attempts func max_retries delay rest
                      (slept ++ [wait_time]) s'
                end
            end
      end
  end.

(** [retry_request(func, max_retries, delay)] of [retry_example], for a
    float [delay]; falling off the loop returns [None]. *)
Definition retry_request {A} (func : M A) (max_retries : Z) (delay : Q)
    (s : state) : retry_result A * list Q * state :=
  retry_attempts func max_retries delay (py_range 1 (max_retries + 1)) [] s.

(** The state after [n] calls of [func] in a row. *)
Fixpoint after_calls {A} (func : M A) (n : nat) (s : state) : state :=
  match n with
  | O => s
  | S n' => after_calls func n' (snd (func s))
  end.

(** [str(x)] for an attribute that holds [None] or an [int]. *)
Definition str_status (status : option Z) : string :=
  match status with
  | Some z => pretty z
  | None => "None"
  end.

(** The table of [handle_api_error]. *)
Definition error_messages : gmap Z string :=
  <[401%Z := "🔒 认证错误: 请提供有效的认证令牌"]>
    (<[403%Z := "🚫 权限错误: 访问被拒绝"]>
       (<[429%Z := "🚦 限流错误: 请求过于频繁，请稍后重试"]>
          {[500%Z := "💥 服务器错误: 内部服务器错误"]})).

(** [if error.response_data]. *)
Definition data_truthy (d : option pyval) : bool :=
  match d with
  | Some v => truthy v
  | None => false
  end.

Section Demonstrations.

Variable wire : Request -> nat -> wire_event.

(** Python's [str] on a decoded body, and [str.lower]. *)
Variable py_str : pyval -> string.
Variable lower : string -> string.

Definition str_data (d : option pyval) : string :=
  match d with
  | Some v => py_str v
  | None => "None"
  end.

(** [handle_api_error] of [error_handling_example]: the lines it prints. *)
Definition handle_api_error (error : HushApiError) : list string :=
  let message :=
    match err_status_code error ≫= (error_messages !!.) with
    | Some m => m
    | None => "❓ 未知错误: " ++ str_status (err_status_code error)
    end in
  if data_truthy (err_response_data error)
  then [message; "错误详情: " ++ str_data (err_response_data error)]
  else [message].

(** What happens at the keyboard of [interactive_mode]: a line is typed,
    given by its words [input(...).strip().split()]; Ctrl-C is pressed at
    the prompt; [input] fails otherwise, with a text (an [EOFError], say); or
    a line is typed and Ctrl-C is pressed before the next one, which lands
    in the request of the command when it makes one and at the next prompt
    when it makes none. *)
Inductive input_event : Type :=
| Typed (command : list string)
| Interrupt
| InputFails (msg : string)
| TypedInterrupted (command : list string).

(** The two lines printed before the loop. *)
Definition banner : list string :=
  [String "010"%char "🎮 交互模式";
   "=================================================="].

Definition menu : list string :=
  [String "010"%char "可用命令:";
   "1. health - 健康检查";
   "2. user - 获取用户信息";
   "3. users - 获取用户列表";
   "4. token <token> - 设置认证令牌";
   "5. quit - 退出"].

(** [print(line)] onto what has been printed so far. *)
Definition print (out : list string) (line : string) : list string :=
  app out [line].

(** The [print] after a call of the client inside the [try]. *)
Definition print_result (r : result pyval) : string :=
  match r with
  | Ok v => "结果: " ++ py_str v
  | Err e => "❌ API 错误: " ++ str_status (err_status_code e)
             ++ " - " ++ str_data (err_response_data e)
  end.

(** The [while True] loop of [interactive_mode] over the events at the
    prompt; the result says whether the loop was left, and gives the state
    and the lines printed.  With no event left the loop waits at the prompt,
    the menu printed. *)
Fixpoint interactive_loop (events : list input_event) (s : state)
    (out : list string) : bool * state * list string :=
  match events with
  | [] => (false, s, (out ++ menu)%list)
  | ev :: rest =>
      let out := (out ++ menu)%list in
      match ev with
      | Interrupt => (true, s, out)
      | InputFails msg => interactive_loop rest s (print out ("❌ 错误: " ++ msg))
      | Typed [] => interactive_loop rest s out
      | Typed (c0 :: args) =>
          let cmd := lower c0 in
          if String.eqb cmd "quit" then (true, s, out)
          else if String.eqb cmd "health" then
            let '(r, s') := health_check wire s in
            interactive_loop rest s' (print out (print_result r))
          else if String.eqb cmd "user" then
            let '(r, s') := get_user_info wire s in
            interactive_loop rest s' (print out (print_result r))
          else if String.eqb cmd "users" then
            let '(r, s') := get_users wire s in
            interactive_loop rest s' (print out (print_result r))
          else
            match String.eqb cmd "token", args with
            | true, t :: _ =>
                let '(_, s') := set_auth_token t s in
                interactive_loop rest s' (print out "认证令牌已设置")
            | _, _ => interactive_loop rest s (print out "未知命令")
            end
      | TypedInterrupted [] => (true, s, app out menu)
      | TypedInterrupted (c0 :: args) =>
          let cmd := lower c0 in
          if String.eqb cmd "quit" then (true, s, out)
          else if String.eqb cmd "health" then
            let '(_, s') := health_check wire s in (true, s', out)
          else if String.eqb cmd "user" then
            let '(_, s') := get_user_info wire s in (true, s', out)
          else if String.eqb cmd "users" then
            let '(_, s') := get_users wire s in (true, s', out)
          else
            match String.eqb cmd "token", args with
            | true, t :: _ =>
                let '(_, s') := set_auth_token t s in
                (true, s', app (print out "认证令牌已设置") menu)
            | _, _ => (true, s, app (print out "未知命令") menu)
            end
      end
  end.

(** [interactive_mode]: the banner, a fresh default client, the loop, the
    goodbye. *)
Definition interactive_mode (events : list input_event)
    : bool * state * list string :=
  let '(gone, s, out) := interactive_loop events fresh banner in
  (gone, s, if gone then print out "👋 再见！" else out).

(** The event makes the loop end. *)
Definition leaves (ev : input_event) : bool :=
  match ev with
  | Interrupt | TypedInterrupted _ => true
  | Typed (c0 :: _) => String.eqb (lower c0) "quit"
  | _ => false
  end.

(** The event is a [token] command with its argument. *)
Definition sets_token (ev : input_event) : bool :=
  match ev with
  | Typed (c0 :: _ :: _) | TypedInterrupted (c0 :: _ :: _) =>
      String.eqb (lower c0) "token"
  | _ => false
  end.

End Demonstrations.

(** The typed methods that send GET or OPTIONS: all but [create_user]. *)
Definition reads_only (op : facade_op) : bool :=
  match op with
  | OpHealthCheck | OpGetUserInfo | OpGetUsers | OpGetAdminDashboard
  | OpCorsPreflightCheck _ _ => true
  | _ => false
  end.

(** The requests the commands of the loop send, for a client with base URL
    [base] and timeout [tm]. *)
Definition prompt_request (base : string) (tm : Z) (req : Request) : Prop :=
  req_method req = "GET" /\ req_json req = None /\ req_params req = None /\
  req_timeout req = tm /\
  (req_url req = base ++ "/health" \/ req_url req = base ++ "/user" \/
   req_url req = base ++ "/api/users").

(** The attempts the wire sees for a list of calls of the session. *)
Definition wire_attempts (p : Retry) (wire : Request -> nat -> wire_event)
    (reqs : list Request) : nat :=
  sum_list ((λ req, tr_attempts (session_request p wire req)) <$> reqs).

(** [delay * (2 ** (attempt - 1))]. *)
Definition wait_time (delay : Q) (attempt : Z) : Q :=
  Qmult delay (inject_Z (2 ^ (attempt - 1))).

(** The string ends with the character [ch]. *)
Fixpoint ends_with (ch : ascii) (s : string) : bool :=
  match s with
  | EmptyString => false
  | String c EmptyString => Ascii.eqb c ch
  | String _ s' => ends_with ch s'
  end.

(** ** Basic facts *)

Lemma rstrip_all_slashes n : rstrip "/" (replicate_char n "/") = "".
Proof. induction n as [|n IH]; simpl; [done | by rewrite IH]. Qed.

Lemma rstrip_app_slashes b n :
  rstrip "/" (b ++ replicate_char n "/") = rstrip "/" b.
Proof.
  induction b as [|c b IH]; simpl.
  - apply rstrip_all_slashes.
  - by rewrite IH.
Qed.

Lemma rstrip_idempotent ch s : rstrip ch (rstrip ch s) = rstrip ch s.
Proof.
  induction s as [|c s IH]; simpl; [done |].
  destruct (rstrip ch s) as [|c' r] eqn:E.
  - destruct (Ascii.eqb c ch) eqn:Ec; simpl; [done | by rewrite Ec].
  - simpl in *. by rewrite IH.
Qed.

Lemma is_2xx_ok r : is_2xx (resp_status_code r) = true -> ok r = true.
Proof. unfold is_2xx, ok. intros H. apply andb_prop in H. lia. Qed.

Lemma ok_true_range r :
  ok r = true <-> (resp_status_code r < 400 \/ 600 <= resp_status_code r)%Z.
Proof. unfold ok. lia. Qed.

Lemma ok_false_range r :
  ok r = false <-> (400 <= resp_status_code r < 600)%Z.
Proof. unfold ok. lia. Qed.

Section FacadeFacts.

Variable wire : Request -> nat -> wire_event.

Lemma make_request_runs method endpoint data headers params s :
  _make_request wire method endpoint data headers params s =
    (surface (tr_outcome (session_request (session (st_self s)) wire
                (build_request (st_self s) method endpoint data headers params))),
     {| st_self := st_self s;
        st_sent := st_sent s
                   ++ [build_request (st_self s) method endpoint data headers params] |}).
Proof.
  unfold _make_request, bind, get_self, do_request, surface; simpl.
  destruct (tr_outcome _) as [r|e]; [|done].
  by destruct (ok r).
Qed.

(** [call] sends exactly the request [request_of] names and hands back what
    [surface] makes of the session's outcome. *)
Lemma call_runs op s req :
  request_of (st_self s) op = Some req ->
  call wire op s =
    (map_result (hand_back op)
       (surface (tr_outcome (session_request (session (st_self s)) wire req))),
     {| st_self := st_self s; st_sent := st_sent s ++ [req] |}).
Proof.
  intros Hreq.
  destruct op; simpl in Hreq; try discriminate; injection Hreq as <-;
    unfold call, health_check, get_user_info, get_users, create_user,
      get_admin_dashboard, cors_preflight_check;
    unfold bind; rewrite ?make_request_runs;
    match goal with |- context [surface ?o] => destruct (surface o) end;
    reflexivity.
Qed.

Lemma call_setter t s :
  call wire (OpSetAuthToken t) s =
    (Ok RetNone, {| st_self := with_token (Some t) (st_self s); st_sent := st_sent s |}).
Proof. reflexivity. Qed.

Lemma request_of_setter self op :
  request_of self op = None <-> is_setter op = true.
Proof. destruct op; simpl; split; congruence. Qed.

End FacadeFacts.

(** ** The retry loop *)

Section RetryLoop.

Variable p : Retry.
Variable method : string.
Variable w : nat -> wire_event.

Lemma is_retry_forced left status h :
  is_method_retryable p method = true ->
  int_in status (status_forcelist p) = true ->
  is_retry (with_total left p) method status h = true.
Proof.
  intros Hm Hs. unfold is_retry.
  change (is_method_retryable (with_total left p) method)
    with (is_method_retryable p method).
  change (status_forcelist (with_total left p)) with (status_forcelist p).
  by rewrite Hm, Hs.
Qed.


Lemma is_retry_method left status h :
  is_method_retryable p method = false ->
  is_retry (with_total left p) method status h = false.
Proof.
  intros Hm. unfold is_retry.
  change (is_method_retryable (with_total left p) method)
    with (is_method_retryable p method).
  by rewrite Hm.
Qed.



(** Whatever the wire does, a call makes at most one attempt more than the
    retries it has left. *)
Lemma urlopen_attempts_bounds left :
  forall attempt sleeps,
    (attempt <= tr_attempts (urlopen p method w left attempt sleeps)
     <= attempt + left + 1)%nat.
Proof.
  induction left as [|left IH]; intros attempt sleeps; simpl.
  - destruct (w attempt) as [r|msg|msg|msg]; simpl.
    + destruct (is_retry _ _ _ _); simpl; lia.
    + lia.
    + destruct (negb _); simpl; lia.
    + lia.
  - destruct (w attempt) as [r|msg|msg|msg]; simpl.
    + destruct (is_retry _ _ _ _); simpl; [|lia].
      specialize (IH (S attempt) (sleeps ++ [sleep_time p (S attempt) (Some r)])%list).
      lia.
    + specialize (IH (S attempt) (sleeps ++ [sleep_time p (S attempt) None])%list).
      lia.
    + destruct (negb _); simpl; [lia |].
      specialize (IH (S attempt) (sleeps ++ [sleep_time p (S attempt) None])%list).
      lia.
    + lia.
Qed.

(** A response the loop returns is one the wire gave. *)
Lemma urlopen_returned_answer left :
  forall attempt sleeps r,
    tr_outcome (urlopen p method w left attempt sleeps) = Returned r ->
    exists k, w k = Responds r.
Proof.
  induction left as [|left IH]; intros attempt sleeps r; simpl;
    destruct (w attempt) as [r0|msg|msg|msg] eqn:Hw; simpl;
    try discriminate; try apply IH;
    try (destruct (negb _); simpl; try discriminate; apply IH);
    destruct (is_retry _ _ _ _); simpl; try discriminate; try apply IH;
    intros [= <-]; eauto.
Qed.



(** A method outside the allowed ones gets the first response back, whatever
    its status. *)
Lemma urlopen_method_not_retried left attempt sleeps r :
  is_method_retryable p method = false ->
  w attempt = Responds r ->
  urlopen p method w left attempt sleeps = mkTrace (Returned r) (S attempt) sleeps.
Proof.
  intros Hm Hw.
  destruct left; simpl; by rewrite Hw, (is_retry_method _ _ _ Hm).
Qed.

(** A response that is neither forced nor a Retry-After candidate comes back
    at once: 401 is such a status under the client's strategy. *)
Lemma urlopen_unretried_status left attempt sleeps r :
  int_in (resp_status_code r) (status_forcelist p) = false ->
  int_in (resp_status_code r) RETRY_AFTER_STATUS_CODES = false ->
  w attempt = Responds r ->
  urlopen p method w left attempt sleeps = mkTrace (Returned r) (S attempt) sleeps.
Proof.
  intros Hf Hra Hw.
  assert (Hno : forall l, is_retry (with_total l p) method (resp_status_code r)
                            (is_Some_b (resp_retry_after r)) = false).
  { intros l. unfold is_retry.
    change (status_forcelist (with_total l p)) with (status_forcelist p).
    rewrite Hf, Hra. destruct (negb _); [done |]. by rewrite andb_false_r. }
  destruct left; simpl; by rewrite Hw, Hno.
Qed.

End RetryLoop.

(** ** The session *)

Lemma upper_ascii_idempotent c : upper_ascii (upper_ascii c) = upper_ascii c.
Proof. destruct c as [[] [] [] [] [] [] [] []]; reflexivity. Qed.

Lemma py_upper_idempotent s : py_upper (py_upper s) = py_upper s.
Proof.
  induction s as [|c s IH]; simpl; [done |].
  by rewrite upper_ascii_idempotent, IH.
Qed.

(** Without a redirect to follow, the call is the one pass through the
    adapter. *)
Lemma follow_direct p wire hops req seen slept :
  match tr_outcome (urlopen p (py_upper (req_method req)) (wire req) (total p) 0 []) with
  | Returned r => redirect_target r = None
  | Raised _ => True
  end ->
  follow p wire hops req seen slept
  = mkTrace (tr_outcome (urlopen p (py_upper (req_method req)) (wire req) (total p) 0 []))
      (seen + tr_attempts (urlopen p (py_upper (req_method req)) (wire req) (total p) 0 []))
      (slept ++ tr_sleeps (urlopen p (py_upper (req_method req)) (wire req) (total p) 0 [])).
Proof.
  intros Hdirect.
  destruct hops; simpl;
    destruct (tr_outcome _) as [r|e]; try reflexivity; by rewrite Hdirect.
Qed.

Lemma session_request_direct p wire req :
  match tr_outcome (urlopen p (py_upper (req_method req)) (wire req) (total p) 0 []) with
  | Returned r => redirect_target r = None
  | Raised _ => True
  end ->
  session_request p wire req
  = urlopen p (py_upper (req_method req)) (wire req) (total p) 0 [].
Proof.
  intros Hdirect. unfold session_request.
  rewrite (follow_direct _ _ _ _ _ _ Hdirect). simpl.
  by destruct (urlopen _ _ _ _ _ _).
Qed.

(** ** Headers *)

Lemma get_headers_authorization self extra :
  _get_headers self extra !! "Authorization" =
    match extra ≫= (.!! "Authorization") with
    | Some v => Some v
    | None => if token_truthy (token self)
              then (λ t, "Bearer " ++ t) <$> token self
              else None
    end.
Proof.
  unfold _get_headers.
  destruct (token self) as [t|]; simpl;
    [destruct (negb (String.eqb t ""))|];
    destruct extra as [extra|]; simpl;
    try (case_bool_decide; subst; rewrite ?lookup_empty);
    rewrite ?lookup_union;
    try destruct (extra !! "Authorization");
    by rewrite ?lookup_insert_eq, ?lookup_insert_ne, ?lookup_singleton_ne.
Qed.

Lemma request_of_authorization self op req :
  overrides_auth op = false ->
  request_of self op = Some req ->
  req_headers req !! "Authorization" =
    if token_truthy (token self) then (λ t, "Bearer " ++ t) <$> token self
    else None.
Proof.
  intros Hov Hreq.
  destruct op; cbn [request_of] in Hreq; try discriminate;
    injection Hreq as <-; cbn [build_request req_headers];
    rewrite get_headers_authorization; cbn [mbind option_bind];
    try reflexivity;
    try (by rewrite lookup_insert_ne, lookup_singleton_ne).
  destruct headers as [h|]; simpl in *; [|done].
  by destruct (h !! "Authorization").
Qed.

Lemma get_headers_empty_token self extra :
  _get_headers (with_token (Some "") self) extra
  = _get_headers (with_token None self) extra.
Proof. reflexivity. Qed.

Lemma request_of_empty_token self op :
  request_of (with_token (Some "") self) op = request_of (with_token None self) op.
Proof. by destruct op. Qed.

Section Runs.

Variable wire : Request -> nat -> wire_event.

(** A run without the setter leaves the client alone and sends, in order,
    the request of each operation. *)
Lemma run_ops_sends ops :
  forall s,
    Forall (λ op, is_setter op = false) ops ->
    run_ops wire ops s =
      {| st_self := st_self s;
         st_sent := st_sent s ++ omap (request_of (st_self s)) ops |}.
Proof.
  induction ops as [|op ops IH]; intros s Hops; simpl.
  - rewrite app_nil_r. by destruct s.
  - inversion Hops as [|? ? Hop Hrest]; subst.
    destruct (request_of (st_self s) op) as [req|] eqn:Hreq.
    + rewrite (call_runs wire op s req Hreq); simpl.
      rewrite IH by done; simpl. by rewrite <- app_assoc.
    + apply request_of_setter in Hreq. congruence.
Qed.

Lemma newly_sent_app s extra self :
  newly_sent s {| st_self := self; st_sent := st_sent s ++ extra |} = extra.
Proof. unfold newly_sent; simpl. apply drop_app_length. Qed.

End Runs.

(** ** The configuration *)

(** C7: the setter writes the token and nothing else; no operation of the
    facade, the raw request included, changes [base_url], [timeout] or the
    mounted session, and only the setter changes the token. *)
Theorem configuration_frame (wire : Request -> nat -> wire_event)
    (op : facade_op) (s : state) (t : string) :
  snd (set_auth_token t s)
    = {| st_self := with_token (Some t) (st_self s); st_sent := st_sent s |} /\
  base_url (st_self (snd (call wire op s))) = base_url (st_self s) /\
  timeout (st_self (snd (call wire op s))) = timeout (st_self s) /\
  session (st_self (snd (call wire op s))) = session (st_self s) /\
  token (st_self (snd (call wire op s)))
    = match op with
      | OpSetAuthToken t' => Some t'
      | _ => token (st_self s)
      end.
Proof.
  split; [reflexivity |].
  destruct (request_of (st_self s) op) as [req|] eqn:Hreq.
  - rewrite (call_runs wire op s req Hreq); simpl.
    by destruct op; try discriminate.
  - apply request_of_setter in Hreq.
    destruct op; try discriminate.
    by rewrite call_setter.
Qed.

(** ** URLs *)

Lemma rstrip_fixed ch s : ends_with ch s = false -> rstrip ch s = s.
Proof.
  induction s as [|c s IH]; simpl; [done |].
  destruct s as [|c' s'].
  - simpl. by intros ->.
  - intros Hend. by rewrite (IH Hend).
Qed.

(** Clients with the same base URL send every operation to the same URL. *)
Lemma call_same_urls (wire1 wire2 : Request -> nat -> wire_event) op c1 c2 :
  base_url c1 = base_url c2 ->
  req_url <$> st_sent (snd (call wire1 op {| st_self := c1; st_sent := [] |}))
  = req_url <$> st_sent (snd (call wire2 op {| st_self := c2; st_sent := [] |})).
Proof.
  intros Hbase.
  set (s1 := {| st_self := c1; st_sent := [] |}).
  set (s2 := {| st_self := c2; st_sent := [] |}).
  destruct (request_of (st_self s1) op) as [r1|] eqn:H1.
  - assert (exists r2, request_of (st_self s2) op = Some r2 /\ req_url r2 = req_url r1)
      as (r2 & H2 & Hurl).
    { destruct op; simpl in H1; try discriminate; injection H1 as <-;
        eexists; (split; [reflexivity |]); simpl; by rewrite Hbase. }
    rewrite (call_runs wire1 op s1 r1 H1), (call_runs wire2 op s2 r2 H2); simpl.
    by rewrite Hurl.
  - apply request_of_setter in H1. destruct op; try discriminate.
    by rewrite !call_setter.
Qed.

(** C9: the constructor strips the trailing slashes of [base_url] and
    nothing else, so two clients whose base URLs differ only in how many
    slashes end them send every operation's request to the same URL: the
    one a client sends it to whose base URL is the common part, as for
    [health_check] the common part followed by /health. *)
Theorem trailing_slashes_same_urls (wire1 wire2 : Request -> nat -> wire_event)
    (b : string) (n m : nat) (t1 t2 : Z) (op : facade_op) :
  base_url (__init__ (b ++ replicate_char n "/") t1) = rstrip "/" b /\
  req_url <$> st_sent (snd (call wire1 op
                {| st_self := __init__ (b ++ replicate_char n "/") t1; st_sent := [] |}))
  = req_url <$> st_sent (snd (call wire2 op
                {| st_self := __init__ (b ++ replicate_char m "/") t2; st_sent := [] |})) /\
  (ends_with "/" b = false ->
   base_url (__init__ (b ++ replicate_char n "/") t1) = b /\
   req_url <$> st_sent (snd (call wire1 op
                 {| st_self := __init__ (b ++ replicate_char n "/") t1; st_sent := [] |}))
   = req_url <$> st_sent (snd (call wire2 op
                 {| st_self := mkClient b t2 None retry_strategy; st_sent := [] |})) /\
   req_url <$> st_sent (snd (health_check wire1
                 {| st_self := __init__ (b ++ replicate_char n "/") t1; st_sent := [] |}))
   = [b ++ "/health"]).
Proof.
  split; [apply rstrip_app_slashes |].
  split.
  { apply call_same_urls. simpl. by rewrite !rstrip_app_slashes. }
  intros Hend.
  assert (Hbase : base_url (__init__ (b ++ replicate_char n "/") t1) = b).
  { simpl. by rewrite rstrip_app_slashes, rstrip_fixed. }
  split; [exact Hbase |]. split.
  - apply call_same_urls. by rewrite Hbase.
  - unfold health_check, bind. rewrite make_request_runs.
    destruct (surface _); simpl; by rewrite rstrip_app_slashes, rstrip_fixed.
Qed.

Lemma trailing_slashes_same_urls_witness :
  req_url <$> st_sent (snd (health_check (always health_ok)
                {| st_self := __init__ ("http://api.example.com/v1"
                                        ++ replicate_char 2 "/") 30;
                   st_sent := [] |}))
  = ["http://api.example.com/v1" ++ "/health"].
Proof.
  destruct (trailing_slashes_same_urls (always health_ok) (always health_ok)
              "http://api.example.com/v1" 2 0 30 30 OpHealthCheck)
    as (_ & _ & H).
  destruct (H eq_refl) as (_ & _ & Hurl).
  exact Hurl.
Defined.

(** ** Request bodies *)

(** C10: the request carries a JSON body exactly when the payload is truthy
    and the method is POST, PUT or PATCH; [create_user] with an empty dict
    sends no body, and a GET never carries one whatever [data] is. *)
Theorem json_body_attached (wire : Request -> nat -> wire_event)
    (self : HushApiClient) (method endpoint : string) (data : pyval)
    (headers params : option (gmap string string)) (s : state) :
  (forall d : pyval,
     req_json (build_request self method endpoint data headers params) = Some d <->
     d = data /\ truthy data = true /\
     (method = "POST" \/ method = "PUT" \/ method = "PATCH")) /\
  req_json <$> newly_sent s (snd (create_user wire (PDict []) s)) = [None] /\
  req_json <$> newly_sent s
     (snd (_make_request wire "GET" endpoint data headers params s)) = [None].
Proof.
  split; [|split].
  - intros d. unfold build_request, json_arg, str_in; simpl.
    rewrite orb_false_r.
    destruct (truthy data); simpl;
      [| split; [done | by intros (_ & ? & _)]].
    destruct (String.eqb_spec method "POST") as [->|HP]; simpl;
      [split; [intros [= <-]; auto | by intros (-> & _)] |].
    destruct (String.eqb_spec method "PUT") as [->|HU]; simpl;
      [split; [intros [= <-]; auto | by intros (-> & _)] |].
    destruct (String.eqb_spec method "PATCH") as [->|HA]; simpl;
      [split; [intros [= <-]; auto | by intros (-> & _)] |].
    split; [done | intros (_ & _ & [?|[?|?]]); congruence].
  - unfold create_user, bind, newly_sent. rewrite make_request_runs; simpl.
    destruct (surface _); simpl; by rewrite drop_app_length.
  - unfold newly_sent. rewrite make_request_runs; simpl.
    rewrite drop_app_length; simpl.
    unfold json_arg. by rewrite andb_false_r.
Qed.

(** ** Responses and errors *)

(** C1, counterexample: a 304 answer is not a 2xx, yet [health_check] hands
    its body back instead of raising. *)
Lemma not_modified_is_returned :
  is_2xx (resp_status_code not_modified) = false /\
  fst (health_check (always not_modified) fresh) = Ok (PStr "").
Proof. split; reflexivity. Qed.

(** C1, amended: whatever response the session hands back, a status outside
    400..599 (any 2xx in particular) makes the operation return the decoded
    body unchanged, and a status in 400..599 makes it raise an error that
    carries that status and the decoded body. *)
Theorem response_surfaces_by_status (wire : Request -> nat -> wire_event)
    (op : facade_op) (s : state) (req : Request) (r : Response) :
  request_of (st_self s) op = Some req ->
  tr_outcome (session_request (session (st_self s)) wire req) = Returned r ->
  ((resp_status_code r < 400 \/ 600 <= resp_status_code r)%Z ->
   exists v, fst (call wire op s) = Ok v /\ payload v = Some (decode r)) /\
  (is_2xx (resp_status_code r) = true ->
   exists v, fst (call wire op s) = Ok v /\ payload v = Some (decode r)) /\
  ((400 <= resp_status_code r < 600)%Z ->
   fst (call wire op s)
   = Err (mkHushApiError
            ("HTTP " ++ pretty (resp_status_code r) ++ ": " ++ resp_reason r)
            (Some (resp_status_code r)) (Some (decode r)))).
Proof.
  intros Hreq Hout.
  rewrite (call_runs wire op s req Hreq), Hout; simpl.
  assert (Hgood : ok r = true ->
            exists v, map_result (hand_back op) (Ok (to_api_response r)) = Ok v /\
                      payload v = Some (decode r)).
  { intros _. eexists; split; [reflexivity |].
    destruct op; try reflexivity. discriminate. }
  split; [|split].
  - intros Hrange. apply ok_true_range in Hrange. rewrite Hrange. auto.
  - intros H2. apply is_2xx_ok in H2. rewrite H2. auto.
  - intros Hrange. apply ok_false_range in Hrange. by rewrite Hrange.
Qed.

Lemma response_surfaces_by_status_witness :
  exists v, fst (call (always health_ok) OpHealthCheck fresh) = Ok v /\
            payload v = Some (PDict [("status", PStr "ok")]).
Proof.
  destruct (response_surfaces_by_status (always health_ok) OpHealthCheck fresh
              get_health health_ok eq_refl eq_refl) as (_ & H & _).
  apply H. reflexivity.
Defined.

(** C4: when the response to an operation's request has status 401, be it
    what the session returns or what the server answers first to a client
    with the constructor's retry strategy, the operation raises an error whose
    status code is 401 and whose response data is the body of that response:
    the JSON value when it parses, the raw text otherwise. *)
Theorem unauthorized_surfaces (wire : Request -> nat -> wire_event)
    (op : facade_op) (s : state) (req : Request) (r : Response) :
  request_of (st_self s) op = Some req ->
  resp_status_code r = 401%Z ->
  tr_outcome (session_request (session (st_self s)) wire req) = Returned r \/
  (session (st_self s) = retry_strategy /\ wire req 0%nat = Responds r) ->
  exists e, fst (call wire op s) = Err e /\
            err_status_code e = Some 401%Z /\
            err_response_data e
            = Some (match resp_json r with
                    | Some v => v
                    | None => PStr (resp_text r)
                    end).
Proof.
  intros Hreq H401 Hresp.
  assert (Hout : tr_outcome (session_request (session (st_self s)) wire req)
                 = Returned r).
  { destruct Hresp as [Hout | [Hp Hw]]; [exact Hout |].
    assert (Hpass : urlopen retry_strategy (py_upper (req_method req)) (wire req)
                      (total retry_strategy) 0 []
                    = mkTrace (Returned r) 1 []).
    { apply urlopen_unretried_status; [by rewrite H401 | by rewrite H401 | exact Hw]. }
    rewrite Hp, session_request_direct; rewrite Hpass; [reflexivity |].
    simpl. unfold redirect_target. by rewrite H401. }
  rewrite (call_runs wire op s req Hreq), Hout; simpl.
  assert (Hbad : ok r = false) by (apply ok_false_range; lia).
  rewrite Hbad, H401; simpl.
  eexists; repeat split.
Qed.

Lemma unauthorized_surfaces_witness :
  exists e, fst (call (always unauthorized) OpGetUsers fresh) = Err e /\
            err_status_code e = Some 401%Z /\
            err_response_data e = Some (PDict [("error", PStr "missing token")]).
Proof.
  apply (unauthorized_surfaces (always unauthorized) OpGetUsers fresh
           (build_request default_client "GET" "/api/users" PNone None None)
           unauthorized eq_refl eq_refl).
  right. split; reflexivity.
Defined.




(** C6, counterexample: on a 200 answer [cors_preflight_check] hands back
    the [ApiResponse] object, not the body the other typed methods return. *)
Lemma preflight_returns_no_body :
  fst (call (always health_ok) (OpCorsPreflightCheck "/api/users" "GET") fresh)
  = Ok (RetResponse (to_api_response health_ok)) /\
  fst (call (always health_ok) (OpCorsPreflightCheck "/api/users" "GET") fresh)
  <> Ok (RetData (decode health_ok)) /\
  fst (call (always health_ok) OpGetUsers fresh) = Ok (RetData (decode health_ok)).
Proof. repeat split. discriminate. Qed.

(** C6, amended: [cors_preflight_check endpoint method] makes one call of the
    session, an OPTIONS request to the given endpoint that names [method] in
    [Access-Control-Request-Method], and on a 2xx answer returns the whole
    [ApiResponse] (status, decoded body, headers, elapsed time), whose data
    is the decoded body. *)
Theorem preflight_returns_envelope (wire : Request -> nat -> wire_event)
    (endpoint method : string) (s : state) :
  exists req,
    newly_sent s (snd (cors_preflight_check wire endpoint method s)) = [req] /\
    req_method req = "OPTIONS" /\
    req_url req = base_url (st_self s) ++ endpoint /\
    req_json req = None /\
    req_headers req !! "Access-Control-Request-Method" = Some method /\
    forall r,
      tr_outcome (session_request (session (st_self s)) wire req) = Returned r ->
      is_2xx (resp_status_code r) = true ->
      fst (cors_preflight_check wire endpoint method s) = Ok (to_api_response r) /\
      api_status_code (to_api_response r) = resp_status_code r /\
      api_data (to_api_response r) = decode r.
Proof.
  unfold cors_preflight_check. rewrite make_request_runs.
  eexists; split; [apply newly_sent_app |].
  split; [reflexivity |]. split; [reflexivity |]. split; [reflexivity |].
  split.
  - cbn [build_request req_headers _get_headers].
    rewrite bool_decide_eq_false_2 by (apply insert_non_empty).
    apply lookup_union_Some_l.
    by rewrite lookup_insert_ne, lookup_singleton_eq.
  - intros r Hout H2. cbn [fst]. rewrite Hout. cbn [surface].
    by rewrite (is_2xx_ok _ H2).
Qed.

Lemma preflight_returns_envelope_witness :
  exists req,
    newly_sent fresh (snd (cors_preflight_check (always health_ok) "/api/users" "GET" fresh))
    = [req] /\
    req_method req = "OPTIONS" /\
    req_url req = base_url (st_self fresh) ++ "/api/users" /\
    req_json req = None /\
    req_headers req !! "Access-Control-Request-Method" = Some "GET" /\
    forall r,
      tr_outcome (session_request (session (st_self fresh)) (always health_ok) req)
      = Returned r ->
      is_2xx (resp_status_code r) = true ->
      fst (cors_preflight_check (always health_ok) "/api/users" "GET" fresh)
      = Ok (to_api_response r) /\
      api_status_code (to_api_response r) = resp_status_code r /\
      api_data (to_api_response r) = decode r.
Proof.
  apply (preflight_returns_envelope (always health_ok) "/api/users" "GET" fresh).
Defined.

(** ** Retries *)




(** ** The bearer token *)

(** C3, counterexample: with the token set, a raw request to which the
    caller passes an Authorization header carries that header, not the
    bearer token; and with no token ever set such a request does carry an
    Authorization header. *)
Lemma caller_header_overrides_bearer :
  (λ req, req_headers req !! "Authorization")
    <$> newly_sent fresh
          (run_ops (always health_ok)
             [OpSetAuthToken "abc";
              OpMakeRequest "GET" "/api/users" PNone
                (Some {["Authorization" := "Basic xyz"]}) None] fresh)
  = [Some "Basic xyz"] /\
  (λ req, req_headers req !! "Authorization")
    <$> newly_sent fresh
          (run_ops (always health_ok)
             [OpMakeRequest "GET" "/api/users" PNone
                (Some {["Authorization" := "Basic xyz"]}) None] fresh)
  = [Some "Basic xyz"].
Proof. split; vm_compute; reflexivity. Qed.

(** C3, amended: after [set_auth_token token] with a non-empty token, every
    later request of the facade carries [Authorization: Bearer token]; while
    the token has never been set, or has been cleared (the empty string
    set), every request goes without the header; in both cases apart from a
    raw request to which the caller passes an Authorization header of its
    own. *)
Theorem bearer_header_on_requests (wire : Request -> nat -> wire_event)
    (t : string) (ops : list facade_op) (s : state) :
  Forall (λ op, is_setter op = false) ops ->
  Forall (λ op, overrides_auth op = false) ops ->
  (t <> "" ->
   Forall (λ req, req_headers req !! "Authorization" = Some ("Bearer " ++ t))
     (newly_sent s (run_ops wire ops (snd (set_auth_token t s))))) /\
  (token_truthy (token (st_self s)) = false ->
   Forall (λ req, req_headers req !! "Authorization" = None)
     (newly_sent s (run_ops wire ops s))) /\
  Forall (λ req, req_headers req !! "Authorization" = None)
    (newly_sent s (run_ops wire ops (snd (set_auth_token "" s)))).
Proof.
  intros Hset Hov.
  assert (Hall : forall self,
            Forall (λ req, req_headers req !! "Authorization"
                           = if token_truthy (token self)
                             then (λ t, "Bearer " ++ t) <$> token self
                             else None)
              (omap (request_of self) ops)).
  { intros self. clear Hset.
    induction Hov as [|op ops Hop _ IH]; simpl; [constructor |].
    destruct (request_of self op) as [req|] eqn:Hreq; [|exact IH].
    constructor; [|exact IH].
    by apply (request_of_authorization self op). }
  split; [|split].
  - intros Ht. rewrite run_ops_sends by done.
    unfold set_auth_token, set_token; cbn [snd st_self st_sent].
    rewrite newly_sent_app.
    eapply Forall_impl; [apply Hall |].
    intros req ->. cbn [token token_truthy truthy].
    destruct (String.eqb_spec t "") as [->|_]; [done | reflexivity].
  - intros Hnone. rewrite run_ops_sends by done.
    rewrite newly_sent_app.
    eapply Forall_impl; [apply Hall |].
    intros req ->. by rewrite Hnone.
  - rewrite run_ops_sends by done.
    unfold set_auth_token, set_token; cbn [snd st_self st_sent].
    rewrite newly_sent_app.
    eapply Forall_impl; [apply Hall |].
    by intros req ->.
Qed.

Lemma bearer_header_on_requests_witness :
  Forall (λ req, req_headers req !! "Authorization" = Some ("Bearer " ++ "abc"))
    (newly_sent fresh
       (run_ops (always health_ok) [OpHealthCheck; OpCreateUser (PDict [])]
          (snd (set_auth_token "abc" fresh)))).
Proof.
  destruct (bearer_header_on_requests (always health_ok) "abc"
              [OpHealthCheck; OpCreateUser (PDict [])] fresh) as (H & _).
  - repeat constructor.
  - repeat constructor.
  - apply H. discriminate.
Defined.

(** C8: [set_auth_token ""] stores the empty string, and from then on the
    facade sends what a client without a token sends: the headers it builds
    are the same, and its requests carry no Authorization header (unless a
    raw request is given one by the caller). *)
Theorem empty_token_like_unset (wire : Request -> nat -> wire_event)
    (ops : list facade_op) (s : state) :
  Forall (λ op, is_setter op = false) ops ->
  Forall (λ op, overrides_auth op = false) ops ->
  token (st_self (snd (set_auth_token "" s))) = Some "" /\
  (forall extra,
     _get_headers (st_self (snd (set_auth_token "" s))) extra
     = _get_headers (with_token None (st_self s)) extra) /\
  Forall (λ req, req_headers req !! "Authorization" = None)
    (newly_sent s (run_ops wire ops (snd (set_auth_token "" s)))) /\
  newly_sent s (run_ops wire ops (snd (set_auth_token "" s)))
  = newly_sent s (run_ops wire ops
                    {| st_self := with_token None (st_self s); st_sent := st_sent s |}).
Proof.
  intros Hset Hov.
  split; [reflexivity |]. split; [reflexivity |].
  rewrite !run_ops_sends by done.
  unfold set_auth_token, set_token; cbn [snd st_self st_sent].
  change {| base_url := base_url (st_self s); timeout := timeout (st_self s);
            token := Some ""; session := session (st_self s) |}
    with (with_token (Some "") (st_self s)).
  rewrite (newly_sent_app s _ (with_token (Some "") (st_self s))),
    (newly_sent_app s _ (with_token None (st_self s))).
  split.
  - clear Hset.
    induction Hov as [|op ops Hop _ IH]; simpl; [constructor |].
    destruct (request_of _ op) as [req|] eqn:Hreq; [|exact IH].
    constructor; [|exact IH].
    by rewrite (request_of_authorization _ op req Hop Hreq).
  - clear. induction ops as [|op ops IH]; [done |].
    change (omap ?f (op :: ops))
      with (match f op with Some r => r :: omap f ops | None => omap f ops end).
    by rewrite request_of_empty_token, IH.
Qed.

Lemma empty_token_like_unset_witness :
  Forall (λ req, req_headers req !! "Authorization" = None)
    (newly_sent fresh
       (run_ops (always health_ok) [OpGetUsers; OpCorsPreflightCheck "/user" "GET"]
          (snd (set_auth_token "" fresh)))).
Proof.
  destruct (empty_token_like_unset (always health_ok)
              [OpGetUsers; OpCorsPreflightCheck "/user" "GET"] fresh)
    as (_ & _ & H & _).
  - repeat constructor.
  - repeat constructor.
  - exact H.
Defined.

Lemma json_body_attached_witness :
  req_json (build_request default_client "POST" "/api/users"
              (PDict [("name", PStr "zhangsan")]) None None)
  = Some (PDict [("name", PStr "zhangsan")]).
Proof.
  destruct (json_body_attached (always health_ok) default_client "POST" "/api/users"
              (PDict [("name", PStr "zhangsan")]) None None fresh) as (H & _).
  apply H. repeat split. left. reflexivity.
Defined.

(** * Further properties of the client *)

(** ** What the retry strategy hides and what it replays *)

Section RetryOutcomes.

Variable p : Retry.
Variable method : string.
Variable w : nat -> wire_event.

(** A response the session returns to a retryable method is never one of the
    forced statuses: those are retried until the retries run out. *)
Lemma urlopen_returned_not_forced left :
  is_method_retryable p method = true ->
  forall attempt sleeps r,
    tr_outcome (urlopen p method w left attempt sleeps) = Returned r ->
    int_in (resp_status_code r) (status_forcelist p) = false.
Proof.
  intros Hm.
  assert (Hplain : forall l r0,
            is_retry (with_total l p) method (resp_status_code r0)
              (is_Some_b (resp_retry_after r0)) = false ->
            int_in (resp_status_code r0) (status_forcelist p) = false).
  { intros l r0 Hr.
    destruct (int_in (resp_status_code r0) (status_forcelist p)) eqn:Hs; [|done].
    by rewrite (is_retry_forced p method l _ _ Hm Hs) in Hr. }
  induction left as [|left IH]; intros attempt sleeps r; simpl;
    destruct (w attempt) as [r0|msg|msg|msg]; rewrite ?Hm; simpl;
    try discriminate; try apply IH;
    destruct (is_retry _ _ _ _) eqn:Hr; simpl;
    try discriminate; try apply IH;
    intros [= <-]; by eapply Hplain.
Qed.

(** When no attempt gets through to the server, every retry is used, for any
    method, and the failure of the last attempt is what the adapter raises. *)
Lemma urlopen_all_refused left :
  (forall k, exists msg, w k = ConnectFails msg) ->
  forall attempt sleeps,
    exists msg,
      w (attempt + left)%nat = ConnectFails msg /\
      urlopen p method w left attempt sleeps
      = mkTrace (Raised (mkRequestException ConnectionError msg))
          (attempt + left + 1)
          (sleeps ++ ((λ k, get_backoff_time p (attempt + k))
                        <$> seq 1 left))%list.
Proof.
  intros Hall.
  induction left as [|left IH]; intros attempt sleeps;
    destruct (Hall attempt) as (msg & Hw); simpl.
  - exists msg. rewrite Nat.add_0_r, Hw. split; [done |].
    by rewrite app_nil_r, Nat.add_1_r.
  - destruct (IH (S attempt) (sleeps ++ [sleep_time p (S attempt) None])%list)
      as (msg' & Hw' & Hrun).
    exists msg'. rewrite Hw.
    replace (attempt + S left)%nat with (S attempt + left)%nat by lia.
    split; [done |]. rewrite Hrun. f_equal.
    rewrite <- app_assoc. f_equal.
    simpl. f_equal.
    + unfold sleep_time. f_equal. lia.
    + rewrite <- (fmap_S_seq 1 left).
      change (list_fmap nat Z ?f (S <$> ?l)) with (f <$> (S <$> l)).
      rewrite <- list_fmap_compose.
      apply list_fmap_ext. intros _ k _. simpl. f_equal. lia.
Qed.

End RetryOutcomes.

Lemma rebuild_method_cases method status :
  rebuild_method method status = method \/ rebuild_method method status = "GET".
Proof.
  unfold rebuild_method.
  repeat match goal with
         | |- context [if ?b then _ else _] => destruct b
         end; auto.
Qed.

(** Redirects do not break the rule: a followed request is sent with the
    method of the request before or with GET, and each one is retried on
    the forced statuses. *)
Lemma follow_returned_not_forced p wire hops :
  is_method_retryable p "GET" = true ->
  forall req seen slept r,
    is_method_retryable p (py_upper (req_method req)) = true ->
    tr_outcome (follow p wire hops req seen slept) = Returned r ->
    int_in (resp_status_code r) (status_forcelist p) = false.
Proof.
  intros Hget.
  induction hops as [|hops IH]; intros req seen slept r Hm; simpl;
    destruct (tr_outcome (urlopen _ _ _ _ _ _)) as [r0|e] eqn:Hout;
    try discriminate;
    destruct (redirect_target r0) as [next|]; simpl; try discriminate.
  - intros [= <-]. by eapply urlopen_returned_not_forced.
  - apply IH. simpl.
    destruct (rebuild_method_cases (py_upper (req_method req)) (resp_status_code r0))
      as [-> | ->]; [by rewrite py_upper_idempotent | exact Hget].
  - intros [= <-]. by eapply urlopen_returned_not_forced.
Qed.

Lemma rstrip_no_trailing ch s : ends_with ch (rstrip ch s) = false.
Proof.
  induction s as [|c s IH]; simpl; [done |].
  destruct (rstrip ch s) as [|c' r] eqn:E.
  - destruct (Ascii.eqb c ch) eqn:Ec; simpl; [done | exact Ec].
  - exact IH.
Qed.

Lemma rstrip_prefix ch s : exists k, s = rstrip ch s ++ replicate_char k ch.
Proof.
  induction s as [|c s [k IH]]; simpl; [by exists 0%nat |].
  destruct (rstrip ch s) as [|c' r] eqn:E.
  - destruct (Ascii.eqb_spec c ch) as [->|Hne].
    + exists (S k). simpl. by rewrite IH at 1.
    + exists k. simpl. by rewrite IH at 1.
  - exists k. simpl. by rewrite IH at 1.
Qed.

Section CallFacts.

Variable wire : Request -> nat -> wire_event.

(** What a request of the facade always carries. *)
Lemma request_of_shape self op req :
  request_of self op = Some req ->
  req_timeout req = timeout self /\
  exists endpoint, req_url req = base_url self ++ endpoint.
Proof.
  intros Hreq.
  destruct op; simpl in Hreq; try discriminate; injection Hreq as <-;
    (split; [reflexivity | eexists; reflexivity]).
Qed.

Lemma request_of_with_token t self op :
  req_timeout <$> request_of (with_token t self) op = req_timeout <$> request_of self op /\
  req_url <$> request_of (with_token t self) op = req_url <$> request_of self op.
Proof. by destruct op. Qed.

(** A run of any operations, the setter among them: one request for each
    operation that is not the setter, all to the same base URL and with the
    same timeout. *)
Lemma run_ops_requests ops :
  forall s,
    exists new,
      st_sent (run_ops wire ops s) = (st_sent s ++ new)%list /\
      List.length new = List.length (List.filter (λ op, negb (is_setter op)) ops) /\
      Forall (λ req, req_timeout req = timeout (st_self s) /\
                     exists endpoint, req_url req = base_url (st_self s) ++ endpoint)
        new.
Proof.
  induction ops as [|op ops IH]; intros s; simpl.
  - exists []. by rewrite app_nil_r.
  - destruct (request_of (st_self s) op) as [req|] eqn:Hreq.
    + rewrite (call_runs wire op s req Hreq); simpl.
      destruct (IH {| st_self := st_self s; st_sent := (st_sent s ++ [req])%list |})
        as (new & Hsent & Hlen & Hall); simpl in *.
      exists (req :: new). rewrite Hsent, <- app_assoc.
      assert (Hns : is_setter op = false) by (by destruct op).
      rewrite Hns; simpl. repeat split; [by rewrite Hlen |].
      constructor; [by apply (request_of_shape _ op) | exact Hall].
    + apply request_of_setter in Hreq.
      destruct op as [tok| | | | | | |]; try discriminate.
      rewrite call_setter; simpl.
      destruct (IH {| st_self := with_token (Some tok) (st_self s);
                      st_sent := st_sent s |})
        as (new & Hsent & Hlen & Hall); simpl in *.
      exists new. by repeat split.
Qed.

End CallFacts.

(** X1: with the strategy of the constructor, an error that a typed GET or
    the CORS preflight raises never carries one of the statuses 429, 500,
    502, 503, 504: such answers are retried and end without a status. *)
Theorem reads_hide_transient_status (wire : Request -> nat -> wire_event)
    (op : facade_op) (s : state) (e : HushApiError) (status : Z) :
  session (st_self s) = retry_strategy ->
  reads_only op = true ->
  fst (call wire op s) = Err e ->
  err_status_code e = Some status ->
  int_in status [429; 500; 502; 503; 504]%Z = false.
Proof.
  intros Hp Hop Herr Hstatus.
  destruct (request_of (st_self s) op) as [req|] eqn:Hreq;
    [| apply request_of_setter in Hreq; by destruct op].
  assert (Hm : is_method_retryable retry_strategy (py_upper (req_method req)) = true).
  { destruct op; try discriminate; simpl in Hreq; by injection Hreq as <-. }
  rewrite (call_runs wire op s req Hreq), Hp in Herr; simpl in Herr.
  destruct (tr_outcome _) as [r|x] eqn:Hout; simpl in Herr.
  - pose proof (follow_returned_not_forced retry_strategy wire _ eq_refl
                  _ _ _ _ Hm Hout) as Hnf.
    destruct (ok r); simpl in Herr; [discriminate |].
    injection Herr as <-. simpl in Hstatus. by injection Hstatus as <-.
  - injection Herr as <-. discriminate.
Qed.

Lemma reads_hide_transient_status_witness :
  int_in 401 [429; 500; 502; 503; 504]%Z = false.
Proof.
  apply (reads_hide_transient_status (always unauthorized) OpGetUsers fresh
           (mkHushApiError "HTTP 401: Unauthorized" (Some 401%Z)
              (Some (PDict [("error", PStr "missing token")])))
           401 eq_refl eq_refl eq_refl eq_refl).
Defined.

(** X2: when no attempt reaches the server, the session tries four times,
    whatever the method, pausing 0, 2 and 4 seconds, and the operation raises
    an error without status code or body whose message quotes the last
    failure. *)
Theorem refused_connection_surfaces (wire : Request -> nat -> wire_event)
    (op : facade_op) (s : state) (req : Request) :
  session (st_self s) = retry_strategy ->
  request_of (st_self s) op = Some req ->
  (forall k, exists msg, wire req k = ConnectFails msg) ->
  exists msg,
    wire req 3%nat = ConnectFails msg /\
    session_request retry_strategy wire req
    = mkTrace (Raised (mkRequestException ConnectionError msg)) 4 [0; 2; 4]%Z /\
    fst (call wire op s) = Err (mkHushApiError ("网络错误: " ++ msg) None None).
Proof.
  intros Hp Hreq Hall.
  destruct (urlopen_all_refused retry_strategy (py_upper (req_method req))
              (wire req) 3 Hall 0%nat []) as (msg & Hw & Hrun).
  exists msg. split; [exact Hw |].
  assert (Hs : session_request retry_strategy wire req
               = mkTrace (Raised (mkRequestException ConnectionError msg)) 4
                   [0; 2; 4]%Z).
  { rewrite session_request_direct; simpl total; by rewrite Hrun. }
  split; [exact Hs |].
  by rewrite (call_runs wire op s req Hreq), Hp, Hs.
Qed.

Lemma refused_connection_surfaces_witness :
  exists msg,
    refused post_user 3%nat = ConnectFails msg /\
    session_request retry_strategy refused post_user
    = mkTrace (Raised (mkRequestException ConnectionError msg)) 4 [0; 2; 4]%Z /\
    fst (call refused (OpCreateUser (PDict [("name", PStr "zhangsan")])) fresh)
    = Err (mkHushApiError ("网络错误: " ++ msg) None None).
Proof.
  apply (refused_connection_surfaces refused
           (OpCreateUser (PDict [("name", PStr "zhangsan")])) fresh post_user
           eq_refl eq_refl).
  intros k. exists "Connection refused". reflexivity.
Defined.

(** X3: [create_user] is not replayed on an answer or on a failed read:
    when the first answer to its POST is a response that is no redirect, the
    wire has seen one attempt and that response comes back to the caller
    whatever its status, a 503 included, which then is the status of the
    error; when reading the answer fails, the session raises after that one
    attempt. *)
Theorem create_user_sent_once (wire : Request -> nat -> wire_event)
    (user_data : pyval) (s : state) (req : Request) :
  session (st_self s) = retry_strategy ->
  request_of (st_self s) (OpCreateUser user_data) = Some req ->
  newly_sent s (snd (create_user wire user_data s)) = [req] /\
  (forall r,
     wire req 0%nat = Responds r ->
     redirect_target r = None ->
     session_request retry_strategy wire req = mkTrace (Returned r) 1 [] /\
     (ok r = true -> fst (create_user wire user_data s) = Ok (decode r)) /\
     (ok r = false ->
      exists e, fst (create_user wire user_data s) = Err e /\
                err_status_code e = Some (resp_status_code r) /\
                err_response_data e = Some (decode r))) /\
  (forall msg,
     wire req 0%nat = ReadFails msg ->
     tr_attempts (session_request retry_strategy wire req) = 1%nat /\
     exists x, tr_outcome (session_request retry_strategy wire req) = Raised x).
Proof.
  intros Hp Hreq.
  injection Hreq as <-.
  set (req := build_request (st_self s) "POST" "/api/users" user_data None None)
    in *.
  unfold create_user, bind. rewrite make_request_runs. fold req. rewrite Hp.
  assert (Hpost : is_method_retryable retry_strategy (py_upper (req_method req))
                  = false) by reflexivity.
  split.
  { destruct (surface _); apply newly_sent_app. }
  split.
  - intros r Hw Hnext.
    pose proof (urlopen_method_not_retried retry_strategy _ (wire req)
                  (total retry_strategy) 0 [] r Hpost Hw) as Hpass.
    assert (Hs : session_request retry_strategy wire req = mkTrace (Returned r) 1 []).
    { rewrite session_request_direct; rewrite Hpass; [reflexivity | exact Hnext]. }
    rewrite Hs. simpl.
    split; [reflexivity |].
    split; intros Hok; rewrite Hok; simpl; [done |].
    eexists; repeat split.
  - intros msg Hw.
    assert (Hpass : urlopen retry_strategy (py_upper (req_method req)) (wire req)
                      (total retry_strategy) 0 []
                    = mkTrace (Raised (mkRequestException ReadTimeout msg)) 1 []).
    { simpl. by rewrite Hw. }
    rewrite session_request_direct; rewrite Hpass; simpl; eauto.
Qed.

Lemma create_user_sent_once_witness :
  session_request retry_strategy (always server_error) post_user
  = mkTrace (Returned server_error) 1 [].
Proof.
  destruct (create_user_sent_once (always server_error)
              (PDict [("name", PStr "zhangsan")]) fresh post_user
              eq_refl eq_refl) as (_ & H & _).
  destruct (H server_error eq_refl eq_refl) as (Hs & _).
  exact Hs.
Defined.

(** X4: in the headers of a request an additional header always wins over
    the client's own, every other key keeps the client's value, and on its
    own the client sends Content-Type, User-Agent and at most Authorization. *)
Theorem additional_headers_win (self : HushApiClient)
    (extra : gmap string string) (k : string) :
  _get_headers self (Some extra) !! k
  = match extra !! k with
    | Some v => Some v
    | None => _get_headers self None !! k
    end /\
  _get_headers self None !! "Content-Type" = Some "application/json" /\
  _get_headers self None !! "User-Agent" = Some "HushApiClient/1.0.0 (Python)" /\
  dom (_get_headers self None) ⊆ {["Content-Type"; "User-Agent"; "Authorization"]}.
Proof.
  split; [|split; [|split]].
  - unfold _get_headers at 1.
    case_bool_decide as Hempty.
    + subst. by rewrite lookup_empty.
    + destruct (extra !! k) as [v|] eqn:Hk.
      * by apply lookup_union_Some_l.
      * by rewrite lookup_union_r.
  - unfold _get_headers.
    destruct (token self) as [t|]; simpl; [destruct (negb _) |];
      by simplify_map_eq.
  - unfold _get_headers.
    destruct (token self) as [t|]; simpl; [destruct (negb _) |];
      by simplify_map_eq.
  - unfold _get_headers.
    destruct (token self) as [t|]; simpl; [destruct (negb _) |];
      rewrite ?dom_insert_L, ?dom_singleton_L;
      intros x; rewrite ?elem_of_union, ?elem_of_singleton; tauto.
Qed.

(** X5: every operation but the setter makes exactly one call of the
    session, whether it returns or raises, and the setter makes none; each
    of these requests carries the timeout of the client and goes to a URL
    under its base URL. *)
Theorem each_call_sends_one_request (wire : Request -> nat -> wire_event)
    (ops : list facade_op) (s : state) :
  List.length (newly_sent s (run_ops wire ops s))
  = List.length (List.filter (λ op, negb (is_setter op)) ops) /\
  Forall (λ req, req_timeout req = timeout (st_self s) /\
                 exists endpoint, req_url req = base_url (st_self s) ++ endpoint)
    (newly_sent s (run_ops wire ops s)).
Proof.
  destruct (run_ops_requests wire ops s) as (new & Hsent & Hlen & Hall).
  unfold newly_sent. rewrite Hsent, drop_app_length. by split.
Qed.

(** X6: the base URL a client keeps never ends in a slash, the URL given to
    the constructor is that base URL followed by slashes only, and building a
    client from the kept base URL gives the same client. *)
Theorem base_url_stripped (b : string) (t : Z) :
  ends_with "/" (base_url (__init__ b t)) = false /\
  (exists k, b = base_url (__init__ b t) ++ replicate_char k "/") /\
  __init__ (base_url (__init__ b t)) t = __init__ b t.
Proof.
  split; [apply rstrip_no_trailing |].
  split; [apply rstrip_prefix |].
  unfold __init__; simpl. by rewrite rstrip_idempotent.
Qed.

(** ** The retry helper of the examples *)

Lemma range_from_app lo a b :
  range_from lo (a + b) = (range_from lo a ++ range_from (lo + Z.of_nat a) b)%list.
Proof.
  revert lo. induction a as [|a IH]; intros lo; simpl.
  - by rewrite Z.add_0_r.
  - rewrite IH. do 3 f_equal. lia.
Qed.

Lemma range_from_below lo count n :
  (lo + Z.of_nat count <= n)%Z -> Forall (λ a, a <> n) (range_from lo count).
Proof.
  revert lo. induction count as [|c IH]; intros lo Hle; simpl; constructor.
  - lia.
  - apply IH. lia.
Qed.

Lemma length_range_from lo count : List.length (range_from lo count) = count.
Proof. revert lo. induction count as [|c IH]; intros lo; simpl; [done | by rewrite IH]. Qed.

(** The attempts up to [k], then [k], then the rest. *)
Lemma py_range_split (k n : Z) :
  (1 <= k <= n)%Z ->
  py_range 1 (n + 1) = (py_range 1 k ++ k :: py_range (k + 1) (n + 1))%list.
Proof.
  intros Hk. unfold py_range.
  replace (Z.to_nat (n + 1 - 1)) with (Z.to_nat (k - 1) + S (Z.to_nat (n - k)))%nat
    by lia.
  rewrite range_from_app; simpl.
  replace (1 + Z.of_nat (Z.to_nat (k - 1)))%Z with k by lia.
  by replace (Z.to_nat (n + 1 - (k + 1))) with (Z.to_nat (n - k)) by lia.
Qed.

(** Sleeps that [time.sleep] takes. *)
Lemma sleep_fine secs :
  (0 <= secs)%Q -> (secs <= 9000000000)%Q -> sleep_error secs = None.
Proof.
  intros H0 Hmax. unfold sleep_error.
  assert (H1 : Qle_bool (secs * inject_Z (10 ^ 9)) (inject_Z (2 ^ 63)) = true).
  { apply Qle_bool_iff.
    change (inject_Z (10 ^ 9)) with 1000000000%Q.
    change (inject_Z (2 ^ 63)) with 9223372036854775808%Q. lra. }
  assert (H2 : Qle_bool (inject_Z (- 2 ^ 63)) (secs * inject_Z (10 ^ 9)) = true).
  { apply Qle_bool_iff.
    change (inject_Z (10 ^ 9)) with 1000000000%Q.
    change (inject_Z (- 2 ^ 63)) with (-9223372036854775808)%Q. lra. }
  assert (H3 : Qle_bool 0 secs = true) by (by apply Qle_bool_iff).
  by rewrite H1, H2, H3.
Qed.

Lemma wait_time_nonneg delay a : (0 <= delay)%Q -> (0 <= wait_time delay a)%Q.
Proof.
  intros Hd. unfold wait_time. apply Qmult_le_0_compat; [exact Hd |].
  change 0%Q with (inject_Z 0). rewrite <- Zle_Qle. apply Z.pow_nonneg. lia.
Qed.

Lemma wait_time_mono delay a b :
  (0 <= delay)%Q -> (1 <= a <= b)%Z -> (wait_time delay a <= wait_time delay b)%Q.
Proof.
  intros Hd Hab. unfold wait_time.
  rewrite !(Qmult_comm delay). apply Qmult_le_compat_r; [|exact Hd].
  rewrite <- Zle_Qle. apply Z.pow_le_mono_r; lia.
Qed.

(** The pauses of the attempts below [n] are all taken when the delay is not
    negative, the power fits a float and the longest pause is short enough. *)
Lemma waits_fine delay n lo count :
  (0 <= delay)%Q ->
  (n <= 1025)%Z ->
  (wait_time delay (n - 1) <= 9000000000)%Q ->
  (1 <= lo)%Z -> (lo + Z.of_nat count <= n)%Z ->
  Forall (λ a, power_error a = None /\ sleep_error (wait_time delay a) = None)
    (range_from lo count).
Proof.
  intros Hd Hn Hmax. revert lo.
  induction count as [|c IH]; intros lo Hlo Hle; simpl; constructor.
  - split.
    + unfold power_error. destruct (Z.leb_spec 1024 (lo - 1)); [lia | done].
    + apply sleep_fine; [by apply wait_time_nonneg |].
      eapply Qle_trans; [|exact Hmax]. apply wait_time_mono; [done | lia].
  - apply IH; lia.
Qed.

Section RetryRequest.

Context {A : Type}.
Variable func : M A.
Variable max_retries : Z.
Variable delay : Q.

Lemma after_calls_succ n s :
  after_calls func (S n) s = snd (func (after_calls func n s)).
Proof. revert s. induction n as [|n IH]; intros s; [done |]. simpl. apply IH. Qed.

(** Attempts that fail before the last one are slept over, one by one. *)
Lemma retry_attempts_failing pre :
  forall rest slept s,
    Forall (λ a, a <> max_retries) pre ->
    Forall (λ a, power_error a = None /\ sleep_error (wait_time delay a) = None) pre ->
    (forall k, (k < List.length pre)%nat ->
               exists e, fst (func (after_calls func k s)) = Err e) ->
    retry_attempts func max_retries delay (pre ++ rest) slept s
    = retry_attempts func max_retries delay rest
        (slept ++ (wait_time delay <$> pre))
        (after_calls func (List.length pre) s).
Proof.
  induction pre as [|a pre IH]; intros rest slept s Hne Hfine Hfail; simpl.
  - by rewrite app_nil_r.
  - inversion Hne as [|? ? Ha Hpre]; subst.
    inversion Hfine as [|? ? [Hpow Hsleep] Hfine']; subst.
    destruct (Hfail 0%nat) as (e & He); [simpl; lia |]. simpl in He.
    destruct (func s) as [r s'] eqn:Hs. simpl in He. subst r.
    destruct (Z.eqb_spec a max_retries) as [|_]; [done |].
    rewrite Hpow. unfold wait_time in Hsleep. rewrite Hsleep.
    rewrite IH; [| exact Hpre | exact Hfine' |].
    + by rewrite <- app_assoc.
    + intros k Hk. destruct (Hfail (S k)) as (e' & He'); [simpl; lia |].
      simpl in He'. rewrite Hs in He'. eauto.
Qed.

End RetryRequest.

(** X7: for a delay that is not negative and pauses that [time.sleep]
    takes (at most 1025 attempts, the longest pause no more than 9 * 10^9
    seconds), when every call fails, [retry_request] with
    [max_retries >= 1] calls [func] exactly [max_retries] times, sleeps
    [delay * 2 ** (k - 1)] after the failure number [k] for each [k] below
    [max_retries], and raises the error of the last call. *)
Theorem retry_request_exhausts {A : Type} (func : M A) (max_retries : Z)
    (delay : Q) (s : state) (e : HushApiError) :
  (1 <= max_retries <= 1025)%Z ->
  (0 <= delay)%Q ->
  (wait_time delay (max_retries - 1) <= 9000000000)%Q ->
  (forall k, (k < Z.to_nat max_retries)%nat ->
             exists e', fst (func (after_calls func k s)) = Err e') ->
  fst (func (after_calls func (Z.to_nat max_retries - 1) s)) = Err e ->
  retry_request func max_retries delay s
  = (Finished (Err e), wait_time delay <$> py_range 1 max_retries,
     after_calls func (Z.to_nat max_retries) s).
Proof.
  intros Hn Hd Hmax Hfail Hlast. unfold retry_request.
  rewrite (py_range_split max_retries max_retries) by lia.
  assert (Hlen : List.length (py_range 1 max_retries) = (Z.to_nat max_retries - 1)%nat).
  { unfold py_range. rewrite length_range_from. lia. }
  rewrite retry_attempts_failing.
  - rewrite Hlen. simpl.
    destruct (func (after_calls func (Z.to_nat max_retries - 1) s)) as [r s'] eqn:Hs.
    simpl in Hlast. subst r. rewrite Z.eqb_refl.
    do 2 f_equal.
    replace (Z.to_nat max_retries) with (S (Z.to_nat max_retries - 1)) by lia.
    rewrite after_calls_succ.
    replace (S (Z.to_nat max_retries - 1) - 1)%nat
      with (Z.to_nat max_retries - 1)%nat in Hs by lia.
    by rewrite Hs.
  - unfold py_range. apply range_from_below. lia.
  - unfold py_range. apply (waits_fine delay max_retries); try done; lia.
  - intros k Hk. apply Hfail. lia.
Qed.

Lemma retry_request_exhausts_witness :
  retry_request (get_users (always unauthorized)) 3 (1 # 2) fresh
  = (Finished (Err (mkHushApiError "HTTP 401: Unauthorized" (Some 401%Z)
                      (Some (PDict [("error", PStr "missing token")])))),
     wait_time (1 # 2) <$> py_range 1 3,
     after_calls (get_users (always unauthorized)) (Z.to_nat 3) fresh).
Proof.
  apply (retry_request_exhausts (get_users (always unauthorized)) 3 (1 # 2) fresh).
  - lia.
  - discriminate.
  - discriminate.
  - intros k Hk. eexists.
    destruct k as [|[|[|k]]]; [reflexivity | reflexivity | reflexivity |].
    simpl in Hk. lia.
  - reflexivity.
Defined.

(** X8: under the same conditions on the pauses, [retry_request] returns
    the value of the first call that succeeds, having called [func] once
    more than it failed and slept once for each failure, twice as long each
    time. *)
Theorem retry_request_returns_first_success {A : Type} (func : M A)
    (max_retries : Z) (delay : Q) (s : state) (j : nat) (v : A) :
  (max_retries <= 1025)%Z ->
  (0 <= delay)%Q ->
  (wait_time delay (max_retries - 1) <= 9000000000)%Q ->
  (j < Z.to_nat max_retries)%nat ->
  (forall k, (k < j)%nat -> exists e, fst (func (after_calls func k s)) = Err e) ->
  fst (func (after_calls func j s)) = Ok v ->
  retry_request func max_retries delay s
  = (Finished (Ok (Some v)), wait_time delay <$> py_range 1 (Z.of_nat j + 1),
     after_calls func (S j) s).
Proof.
  intros Hn Hd Hmax Hj Hfail Hok. unfold retry_request.
  rewrite (py_range_split (Z.of_nat j + 1) max_retries) by lia.
  assert (Hlen : List.length (py_range 1 (Z.of_nat j + 1)) = j).
  { unfold py_range. rewrite length_range_from. lia. }
  rewrite after_calls_succ, retry_attempts_failing.
  - rewrite Hlen. simpl.
    destruct (func (after_calls func j s)) as [r s'] eqn:Hs.
    simpl in Hok. by subst r.
  - unfold py_range. apply range_from_below. lia.
  - unfold py_range. apply (waits_fine delay max_retries); try done; lia.
  - intros k Hk. apply Hfail. lia.
Qed.

Lemma retry_request_returns_first_success_witness :
  retry_request users_then_health 3 1 fresh
  = (Finished (Ok (Some (PDict [("status", PStr "ok")]))),
     wait_time 1 <$> py_range 1 (Z.of_nat 1 + 1),
     after_calls users_then_health 2 fresh).
Proof.
  apply (retry_request_returns_first_success users_then_health 3 1 fresh 1).
  - lia.
  - discriminate.
  - discriminate.
  - simpl. lia.
  - intros k Hk. destruct k as [|k]; [|lia]. eexists. reflexivity.
  - reflexivity.
Defined.

(** X9: with [max_retries] zero or negative [retry_request] never calls
    [func]; it returns [None] and raises nothing. *)
Theorem retry_request_without_attempts {A : Type} (func : M A)
    (max_retries : Z) (delay : Q) (s : state) :
  (max_retries <= 0)%Z ->
  retry_request func max_retries delay s = (Finished (Ok None), [], s).
Proof.
  intros Hn. unfold retry_request, py_range.
  by replace (Z.to_nat (max_retries + 1 - 1)) with 0%nat by lia.
Qed.

Lemma retry_request_without_attempts_witness :
  retry_request (get_users refused) 0 1 fresh = (Finished (Ok None), [], fresh).
Proof.
  apply (retry_request_without_attempts (get_users refused) 0 1 fresh). lia.
Defined.

Section RetryFacade.

Variable wire : Request -> nat -> wire_event.

Lemma wire_attempts_replicate p k req :
  wire_attempts p wire (replicate k req)
  = (k * tr_attempts (session_request p wire req))%nat.
Proof.
  unfold wire_attempts. induction k as [|k IH]; simpl; [done |].
  f_equal. exact IH.
Qed.

(** Around an operation of the facade the loop calls the session once per
    attempt made, with the same request, and leaves the client alone. *)
Lemma retry_attempts_facade op req max_retries delay attempts :
  forall slept s,
    request_of (st_self s) op = Some req ->
    exists k,
      (k <= List.length attempts)%nat /\
      (attempts <> [] -> (1 <= k)%nat) /\
      snd (retry_attempts (call wire op) max_retries delay attempts slept s)
      = {| st_self := st_self s; st_sent := (st_sent s ++ replicate k req)%list |}.
Proof.
  induction attempts as [|a attempts IH]; intros slept s Hreq; simpl.
  - exists 0%nat. simpl. rewrite app_nil_r. by destruct s.
  - rewrite (call_runs wire op s req Hreq).
    assert (Hone : exists k,
              (k <= S (List.length attempts))%nat /\
              (a :: attempts <> [] -> (1 <= k)%nat) /\
              {| st_self := st_self s; st_sent := (st_sent s ++ [req])%list |}
              = {| st_self := st_self s;
                   st_sent := (st_sent s ++ replicate k req)%list |}).
    { exists 1%nat. simpl. repeat split; lia. }
    destruct (map_result _ _) as [v|e]; [exact Hone |].
    destruct (a =? max_retries)%Z; [exact Hone |].
    destruct (power_error a); [exact Hone |].
    destruct (sleep_error _); [exact Hone |].
    destruct (IH (slept ++ [wait_time delay a])%list
                {| st_self := st_self s; st_sent := (st_sent s ++ [req])%list |}
                Hreq) as (k & Hk & _ & Hrun).
    exists (S k). simpl in *. split; [lia |]. split; [lia |].
    unfold wait_time in Hrun. rewrite Hrun. by rewrite <- app_assoc.
Qed.

End RetryFacade.

(** A call none of whose answers is a redirect makes at most four attempts. *)
Lemma session_request_attempts_le wire req :
  (forall k r, wire req k = Responds r -> redirect_target r = None) ->
  (tr_attempts (session_request retry_strategy wire req) <= 4)%nat.
Proof.
  intros Hnone.
  pose proof (urlopen_attempts_bounds retry_strategy (py_upper (req_method req))
                (wire req) 3 0 []) as Hb.
  rewrite session_request_direct; [simpl total; lia |].
  destruct (tr_outcome _) as [r|e] eqn:Hout; [|done].
  destruct (urlopen_returned_answer _ _ _ _ _ _ _ Hout) as (k & Hk).
  by apply (Hnone k).
Qed.

(** X10: around an operation of the facade, [retry_request] with
    [max_retries >= 1] calls the session between one and [max_retries]
    times, always with the same request, and leaves the client as it was,
    whatever the delay; with the retries of the adapter underneath, and no
    redirect among the answers, the wire sees at most [4 * max_retries]
    attempts. *)
Theorem retry_request_over_facade (wire : Request -> nat -> wire_event)
    (op : facade_op) (max_retries : Z) (delay : Q) (s : state) (req : Request) :
  (1 <= max_retries)%Z ->
  session (st_self s) = retry_strategy ->
  request_of (st_self s) op = Some req ->
  st_self (snd (retry_request (call wire op) max_retries delay s)) = st_self s /\
  exists k,
    (1 <= k <= Z.to_nat max_retries)%nat /\
    newly_sent s (snd (retry_request (call wire op) max_retries delay s))
    = replicate k req /\
    ((forall j r, wire req j = Responds r -> redirect_target r = None) ->
     (wire_attempts retry_strategy wire
        (newly_sent s (snd (retry_request (call wire op) max_retries delay s)))
      <= 4 * Z.to_nat max_retries)%nat).
Proof.
  intros Hn Hp Hreq. unfold retry_request.
  destruct (retry_attempts_facade wire op req max_retries delay
              (py_range 1 (max_retries + 1)) [] s Hreq) as (k & Hk & Hk1 & Hrun).
  rewrite Hrun. split; [reflexivity |].
  unfold py_range in Hk, Hk1. rewrite length_range_from in Hk.
  assert (1 <= k)%nat.
  { apply Hk1. replace (Z.to_nat (max_retries + 1 - 1))
      with (S (Z.to_nat max_retries - 1)) by lia. discriminate. }
  exists k. rewrite newly_sent_app. split; [lia |]. split; [reflexivity |].
  intros Hnone. rewrite wire_attempts_replicate.
  pose proof (session_request_attempts_le wire req Hnone) as Hb.
  nia.
Qed.

Lemma retry_request_over_facade_witness :
  exists k,
    (1 <= k <= Z.to_nat 3)%nat /\
    newly_sent fresh
      (snd (retry_request (call (always server_error) OpHealthCheck) 3 1 fresh))
    = replicate k get_health /\
    ((forall j r, always server_error get_health j = Responds r ->
                  redirect_target r = None) ->
     (wire_attempts retry_strategy (always server_error)
        (newly_sent fresh
           (snd (retry_request (call (always server_error) OpHealthCheck) 3 1 fresh)))
      <= 4 * Z.to_nat 3)%nat).
Proof.
  destruct (retry_request_over_facade (always server_error) OpHealthCheck 3 1
              fresh get_health) as (_ & H).
  - lia.
  - reflexivity.
  - reflexivity.
  - exact H.
Defined.

(** ** The error report of the examples *)

Lemma error_messages_lookup status :
  error_messages !! status
  = if decide (status = 401%Z) then Some "🔒 认证错误: 请提供有效的认证令牌"
    else if decide (status = 403%Z) then Some "🚫 权限错误: 访问被拒绝"
    else if decide (status = 429%Z) then Some "🚦 限流错误: 请求过于频繁，请稍后重试"
    else if decide (status = 500%Z) then Some "💥 服务器错误: 内部服务器错误"
    else None.
Proof.
  unfold error_messages.
  rewrite !lookup_insert, lookup_singleton.
  repeat case_decide; congruence.
Qed.

(** X11: when the session raises instead of returning a response, be it for
    a refused connection or for retries run out on a 500, the error the
    operation raises makes [handle_api_error] print one line, the unknown
    error with status [None], and no details. *)
Theorem handle_api_error_without_response (wire : Request -> nat -> wire_event)
    (py_str : pyval -> string) (op : facade_op) (s : state) (req : Request)
    (x : RequestException) :
  request_of (st_self s) op = Some req ->
  tr_outcome (session_request (session (st_self s)) wire req) = Raised x ->
  exists e, fst (call wire op s) = Err e /\
            handle_api_error py_str e = ["❓ 未知错误: None"].
Proof.
  intros Hreq Hout.
  rewrite (call_runs wire op s req Hreq), Hout. simpl.
  eexists. split; reflexivity.
Qed.

Lemma handle_api_error_without_response_witness :
  exists e, fst (call (always server_error) OpGetUsers fresh) = Err e /\
            handle_api_error (λ _, "") e = ["❓ 未知错误: None"].
Proof.
  apply (handle_api_error_without_response (always server_error) (λ _, "")
           OpGetUsers fresh
           (build_request default_client "GET" "/api/users" PNone None None)
           (mkRequestException RetryError "too many 500 error responses")
           eq_refl eq_refl).
Defined.

(** X12: for the errors of the typed GET methods and of the preflight, on a
    client with the constructor's strategy, [handle_api_error] never prints
    the message of its table for 429 nor the one for 500. *)
Theorem handle_api_error_dead_entries (wire : Request -> nat -> wire_event)
    (py_str : pyval -> string) (op : facade_op) (s : state) (e : HushApiError)
    (line : string) :
  session (st_self s) = retry_strategy ->
  reads_only op = true ->
  fst (call wire op s) = Err e ->
  handle_api_error py_str e !! 0%nat = Some line ->
  error_messages !! 429%Z <> Some line /\ error_messages !! 500%Z <> Some line.
Proof.
  intros Hp Hop Herr Hline.
  pose proof (reads_hide_transient_status wire op s e) as Hhide.
  specialize (fun st => Hhide st Hp Hop Herr).
  assert (Hmsg : line = match err_status_code e ≫= (error_messages !!.) with
                        | Some m => m
                        | None => "❓ 未知错误: " ++ str_status (err_status_code e)
                        end).
  { unfold handle_api_error in Hline.
    destruct (data_truthy _); simpl in Hline; congruence. }
  rewrite !error_messages_lookup; simpl.
  destruct (err_status_code e) as [st|]; simpl in Hmsg.
  - specialize (Hhide st eq_refl).
    rewrite error_messages_lookup in Hmsg.
    repeat case_decide; subst; try discriminate; split; discriminate.
  - subst. split; discriminate.
Qed.

Lemma handle_api_error_dead_entries_witness :
  error_messages !! 429%Z <> Some "🔒 认证错误: 请提供有效的认证令牌" /\
  error_messages !! 500%Z <> Some "🔒 认证错误: 请提供有效的认证令牌".
Proof.
  apply (handle_api_error_dead_entries (always unauthorized) (λ _, "") OpGetUsers
           fresh
           (mkHushApiError "HTTP 401: Unauthorized" (Some 401%Z)
              (Some (PDict [("error", PStr "missing token")])))
           "🔒 认证错误: 请提供有效的认证令牌"
           eq_refl eq_refl eq_refl eq_refl).
Defined.

(** ** The interactive mode *)

Lemma newly_sent_grows s s1 s' req new :
  st_sent s1 = (st_sent s ++ [req])%list ->
  st_sent s' = (st_sent s1 ++ new)%list ->
  newly_sent s1 s' = new /\ newly_sent s s' = req :: new.
Proof.
  intros H1 H'. unfold newly_sent. split.
  - by rewrite H', drop_app_length.
  - by rewrite H', H1, <- app_assoc, drop_app_length.
Qed.

Section Interactive.

Variable wire : Request -> nat -> wire_event.
Variable py_str : pyval -> string.
Variable lower : string -> string.

(** What a typed GET leaves behind. *)
Lemma typed_get_runs endpoint s :
  (response <- _make_request wire "GET" endpoint PNone None None ;;
   ret (api_data response)) s
  = (map_result api_data
       (surface (tr_outcome (session_request (session (st_self s)) wire
                   (build_request (st_self s) "GET" endpoint PNone None None)))),
     {| st_self := st_self s;
        st_sent := (st_sent s
                    ++ [build_request (st_self s) "GET" endpoint PNone None None])%list |}).
Proof.
  unfold bind. rewrite make_request_runs. by destruct (surface _).
Qed.

(** One turn of the loop at a time. *)
Ltac loop_turn :=
  simpl;
  repeat match goal with
         | |- context [match ?ev with
                       | Typed _ => _ | Interrupt => _ | InputFails _ => _
                       | TypedInterrupted _ => _
                       end] =>
             destruct ev as [ [ | ? [ | ? ? ] ] | | ? | [ | ? [ | ? ? ] ] ]; simpl
         | |- context [if String.eqb ?a ?b then _ else _] =>
             destruct (String.eqb a b) eqn:?; simpl
         end;
  unfold health_check, get_user_info, get_users;
  rewrite ?typed_get_runs.

Lemma interactive_loop_left events :
  forall s out,
    fst (fst (interactive_loop wire py_str lower events s out))
    = existsb (leaves lower) events.
Proof.
  induction events as [|ev events IH]; intros s out; [done |].
  loop_turn; try reflexivity; try apply IH.
Qed.

Lemma interactive_loop_stops pre ev rest :
  leaves lower ev = true ->
  forall s out,
    interactive_loop wire py_str lower (pre ++ ev :: rest) s out
    = interactive_loop wire py_str lower (pre ++ [ev]) s out.
Proof.
  intros Hev.
  induction pre as [|ev' pre IH]; intros s out.
  - destruct ev as [ [ |c0 args] | |msg|command]; simpl in *;
      try discriminate; try done.
    by rewrite Hev.
  - rewrite <- !app_comm_cons. loop_turn; try reflexivity; try apply IH.
Qed.

(** The loop keeps the configuration, and sends only its three GETs, at most
    one for each event. *)
Lemma interactive_loop_requests events :
  forall s out,
    let s' := snd (fst (interactive_loop wire py_str lower events s out)) in
    base_url (st_self s') = base_url (st_self s) /\
    timeout (st_self s') = timeout (st_self s) /\
    session (st_self s') = session (st_self s) /\
    exists new,
      st_sent s' = (st_sent s ++ new)%list /\
      (List.length new <= List.length events)%nat /\
      Forall (prompt_request (base_url (st_self s)) (timeout (st_self s))) new.
Proof.
  induction events as [|ev events IH]; intros s out.
  - simpl. repeat split. exists []. by rewrite app_nil_r.
  - assert (Hstay : forall s1 out1,
              base_url (st_self s1) = base_url (st_self s) ->
              timeout (st_self s1) = timeout (st_self s) ->
              session (st_self s1) = session (st_self s) ->
              st_sent s1 = st_sent s ->
              let s' := snd (fst (interactive_loop wire py_str lower events s1 out1)) in
              base_url (st_self s') = base_url (st_self s) /\
              timeout (st_self s') = timeout (st_self s) /\
              session (st_self s') = session (st_self s) /\
              exists new,
                st_sent s' = (st_sent s ++ new)%list /\
                (List.length new <= S (List.length events))%nat /\
                Forall (prompt_request (base_url (st_self s)) (timeout (st_self s))) new).
    { intros s1 out1 Hb1 Ht1 Hp1 Hsent.
      destruct (IH s1 out1) as (Hb & Ht & Hp & new & Hnew & Hlen & Hall).
      rewrite Hb1, Ht1, Hp1, Hsent in *. repeat split; try done.
      exists new. repeat split; [done | lia | done]. }
    assert (Hget : forall endpoint out1,
              endpoint = "/health" \/ endpoint = "/user" \/ endpoint = "/api/users" ->
              let s' := snd (fst (interactive_loop wire py_str lower events
                          {| st_self := st_self s;
                             st_sent := (st_sent s ++
                               [build_request (st_self s) "GET" endpoint PNone None None])%list |}
                          out1)) in
              base_url (st_self s') = base_url (st_self s) /\
              timeout (st_self s') = timeout (st_self s) /\
              session (st_self s') = session (st_self s) /\
              exists new,
                st_sent s' = (st_sent s ++ new)%list /\
                (List.length new <= S (List.length events))%nat /\
                Forall (prompt_request (base_url (st_self s)) (timeout (st_self s))) new).
    { intros endpoint out1 Hep.
      destruct (IH {| st_self := st_self s;
                      st_sent := (st_sent s ++
                        [build_request (st_self s) "GET" endpoint PNone None None])%list |}
                  out1) as (Hb & Ht & Hp & new & Hnew & Hlen & Hall).
      simpl in *. repeat split; try done.
      exists (build_request (st_self s) "GET" endpoint PNone None None :: new).
      rewrite Hnew, <- app_assoc. repeat split; [simpl; lia |].
      constructor; [|done].
      repeat split; try reflexivity.
      destruct Hep as [ -> | [ -> | -> ] ]; simpl; auto. }
    assert (Hhere : base_url (st_self s) = base_url (st_self s) /\
                    timeout (st_self s) = timeout (st_self s) /\
                    session (st_self s) = session (st_self s) /\
                    exists new,
                      st_sent s = (st_sent s ++ new)%list /\
                      (List.length new <= S (List.length events))%nat /\
                      Forall (prompt_request (base_url (st_self s)) (timeout (st_self s))) new).
    { repeat split. exists []. rewrite app_nil_r. repeat split; [simpl; lia | constructor]. }
    assert (Hlast : forall endpoint,
              endpoint = "/health" \/ endpoint = "/user" \/ endpoint = "/api/users" ->
              let s' := {| st_self := st_self s;
                           st_sent := (st_sent s ++
                             [build_request (st_self s) "GET" endpoint PNone None None])%list |} in
              base_url (st_self s') = base_url (st_self s) /\
              timeout (st_self s') = timeout (st_self s) /\
              session (st_self s') = session (st_self s) /\
              exists new,
                st_sent s' = (st_sent s ++ new)%list /\
                (List.length new <= S (List.length events))%nat /\
                Forall (prompt_request (base_url (st_self s)) (timeout (st_self s))) new).
    { intros endpoint Hep. simpl. repeat split.
      exists [build_request (st_self s) "GET" endpoint PNone None None].
      repeat split; [simpl; lia |].
      constructor; [|constructor].
      repeat split; try reflexivity.
      destruct Hep as [ -> | [ -> | -> ] ]; simpl; auto. }
    loop_turn; try exact Hhere; try (by apply Hstay); try (apply Hget; auto);
      try (apply Hlast; auto).
Qed.

(** Without a [token] command the token stays, and every request carries the
    Authorization header it stands for, or none. *)
Lemma interactive_loop_token events :
  forall s out,
    Forall (λ ev, sets_token lower ev = false) events ->
    let s' := snd (fst (interactive_loop wire py_str lower events s out)) in
    token (st_self s') = token (st_self s) /\
    Forall (λ req, req_headers req !! "Authorization"
                   = if token_truthy (token (st_self s))
                     then (λ t, "Bearer " ++ t) <$> token (st_self s)
                     else None)
      (newly_sent s s').
Proof.
  induction events as [|ev events IH]; intros s out Hno.
  - simpl. split; [done |]. unfold newly_sent. rewrite drop_all. constructor.
  - inversion Hno as [|? ? Hev Hrest]; subst.
    assert (Hstay : forall out1,
              let s' := snd (fst (interactive_loop wire py_str lower events s out1)) in
              token (st_self s') = token (st_self s) /\
              Forall (λ req, req_headers req !! "Authorization"
                             = if token_truthy (token (st_self s))
                               then (λ t, "Bearer " ++ t) <$> token (st_self s)
                               else None)
                (newly_sent s s')).
    { intros out1. by apply IH. }
    assert (Hget : forall endpoint out1,
              let s1 := {| st_self := st_self s;
                           st_sent := (st_sent s ++
                             [build_request (st_self s) "GET" endpoint PNone None None])%list |} in
              let s' := snd (fst (interactive_loop wire py_str lower events s1 out1)) in
              token (st_self s') = token (st_self s) /\
              Forall (λ req, req_headers req !! "Authorization"
                             = if token_truthy (token (st_self s))
                               then (λ t, "Bearer " ++ t) <$> token (st_self s)
                               else None)
                (newly_sent s s')).
    { intros endpoint out1 s1 s'.
      destruct (IH s1 out1 Hrest) as (Htok & Hall).
      destruct (interactive_loop_requests events s1 out1)
        as (_ & _ & _ & new & Hnew & _ & _).
      fold s' in Htok, Hall, Hnew. simpl in Htok, Hnew.
      split; [exact Htok |].
      destruct (newly_sent_grows s s1 s'
                  (build_request (st_self s) "GET" endpoint PNone None None) new
                  eq_refl Hnew) as (Hnew1 & Hnew0).
      rewrite Hnew1 in Hall. rewrite Hnew0.
      constructor; [|exact Hall].
      apply (request_of_authorization (st_self s)
               (OpMakeRequest "GET" endpoint PNone None None)); reflexivity. }
    assert (Hhere : token (st_self s) = token (st_self s) /\
              Forall (λ req, req_headers req !! "Authorization"
                             = if token_truthy (token (st_self s))
                               then (λ t, "Bearer " ++ t) <$> token (st_self s)
                               else None)
                (newly_sent s s)).
    { split; [done |]. unfold newly_sent. rewrite drop_all. constructor. }
    assert (Hlast : forall endpoint,
              let s' := {| st_self := st_self s;
                           st_sent := (st_sent s ++
                             [build_request (st_self s) "GET" endpoint PNone None None])%list |} in
              token (st_self s') = token (st_self s) /\
              Forall (λ req, req_headers req !! "Authorization"
                             = if token_truthy (token (st_self s))
                               then (λ t, "Bearer " ++ t) <$> token (st_self s)
                               else None)
                (newly_sent s s')).
    { intros endpoint s'. split; [done |].
      unfold s'. rewrite newly_sent_app.
      constructor; [|constructor].
      apply (request_of_authorization (st_self s)
               (OpMakeRequest "GET" endpoint PNone None None)); reflexivity. }
    loop_turn; try exact Hhere; try apply Hstay; try apply Hget; try apply Hlast.
    all: simpl in Hev; congruence.
Qed.

End Interactive.

Lemma interactive_mode_unfold wire py_str lower events :
  interactive_mode wire py_str lower events
  = (fst (fst (interactive_loop wire py_str lower events fresh banner)),
     snd (fst (interactive_loop wire py_str lower events fresh banner)),
     if fst (fst (interactive_loop wire py_str lower events fresh banner))
     then print (snd (interactive_loop wire py_str lower events fresh banner)) "👋 再见！"
     else snd (interactive_loop wire py_str lower events fresh banner)).
Proof.
  unfold interactive_mode.
  by destruct (interactive_loop wire py_str lower events fresh banner) as [[gone s] out].
Qed.

(** X13: the interactive mode is left exactly when a line starts with a word
    that lower-cases to [quit] or Ctrl-C is pressed, at the prompt or while
    a request is under way, whatever the server answers before; what is
    typed after that is never read, and the last line printed is the
    goodbye. *)
Theorem interactive_mode_leaves (wire : Request -> nat -> wire_event)
    (py_str : pyval -> string) (lower : string -> string)
    (pre rest : list input_event) (ev : input_event) :
  leaves lower ev = true ->
  interactive_mode wire py_str lower (pre ++ ev :: rest)
  = interactive_mode wire py_str lower (pre ++ [ev]) /\
  last (snd (interactive_mode wire py_str lower (pre ++ ev :: rest)))
  = Some "👋 再见！" /\
  forall events,
    fst (fst (interactive_mode wire py_str lower events))
    = existsb (leaves lower) events.
Proof.
  intros Hev.
  assert (Hall : forall events,
            fst (fst (interactive_mode wire py_str lower events))
            = existsb (leaves lower) events).
  { intros events. rewrite interactive_mode_unfold. simpl.
    apply interactive_loop_left. }
  split; [|split; [|exact Hall]].
  - unfold interactive_mode. by rewrite (interactive_loop_stops _ _ _ pre ev rest Hev).
  - pose proof (Hall (pre ++ ev :: rest)%list) as Hgone.
    rewrite existsb_app in Hgone. simpl in Hgone.
    rewrite Hev, orb_true_r in Hgone.
    rewrite interactive_mode_unfold in *. simpl in *. rewrite Hgone.
    unfold print. apply last_snoc.
Qed.

Lemma interactive_mode_leaves_witness :
  interactive_mode (always health_ok) (λ _, "") (λ x, x)
    ([Typed ["health"]] ++ TypedInterrupted ["users"] :: [Typed ["health"]])
  = interactive_mode (always health_ok) (λ _, "") (λ x, x)
      ([Typed ["health"]] ++ [TypedInterrupted ["users"]]).
Proof.
  apply (interactive_mode_leaves (always health_ok) (λ _, "") (λ x, x)
           [Typed ["health"]] [Typed ["health"]] (TypedInterrupted ["users"])).
  reflexivity.
Defined.

(** X14: after a line [token t ...] with [t] not empty, and until the next
    such line, the client holds [t] and every request the loop sends carries
    [Authorization: Bearer t]; the word alone, without a value, is an unknown
    command and changes nothing. *)
Theorem interactive_token_reaches_requests (wire : Request -> nat -> wire_event)
    (py_str : pyval -> string) (lower : string -> string)
    (c0 t : string) (more : list string) (rest : list input_event)
    (s : state) (out : list string) :
  lower c0 = "token" ->
  t <> "" ->
  Forall (λ ev, sets_token lower ev = false) rest ->
  token (st_self (snd (fst (interactive_loop wire py_str lower
                              (Typed (c0 :: t :: more) :: rest) s out))))
  = Some t /\
  Forall (λ req, req_headers req !! "Authorization" = Some ("Bearer " ++ t))
    (newly_sent s (snd (fst (interactive_loop wire py_str lower
                               (Typed (c0 :: t :: more) :: rest) s out)))) /\
  interactive_loop wire py_str lower (Typed [c0] :: rest) s out
  = interactive_loop wire py_str lower rest s (print (out ++ menu) "未知命令").
Proof.
  intros Hc0 Ht Hrest.
  simpl. rewrite Hc0. simpl.
  destruct (interactive_loop_token wire py_str lower rest
              {| st_self := with_token (Some t) (st_self s); st_sent := st_sent s |}
              (print (out ++ menu) "认证令牌已设置") Hrest) as (Htok & Hall).
  split; [exact Htok |]. split; [|reflexivity].
  eapply Forall_impl; [exact Hall |].
  intros req ->. simpl.
  destruct (String.eqb_spec t "") as [->|_]; [done | reflexivity].
Qed.

Lemma interactive_token_reaches_requests_witness :
  Forall (λ req, req_headers req !! "Authorization" = Some ("Bearer " ++ "abc"))
    (newly_sent fresh
       (snd (fst (interactive_loop (always health_ok) (λ _, "") (λ x, x)
                    (Typed ("token" :: "abc" :: []) :: [Typed ["users"]])
                    fresh [])))).
Proof.
  destruct (interactive_token_reaches_requests (always health_ok) (λ _, "")
              (λ x, x) "token" "abc" [] [Typed ["users"]] fresh [])
    as (_ & H & _).
  - reflexivity.
  - discriminate.
  - repeat constructor.
  - exact H.
Defined.

(** X15: whatever is typed, the interactive mode keeps the default base URL
    and timeout, and sends nothing but GET requests without body or
    parameters to /health, /user and /api/users, at most one per line. *)
Theorem interactive_mode_requests (wire : Request -> nat -> wire_event)
    (py_str : pyval -> string) (lower : string -> string)
    (events : list input_event) :
  base_url (st_self (snd (fst (interactive_mode wire py_str lower events))))
  = "http://localhost:8080" /\
  timeout (st_self (snd (fst (interactive_mode wire py_str lower events)))) = 30%Z /\
  session (st_self (snd (fst (interactive_mode wire py_str lower events))))
  = retry_strategy /\
  (List.length (st_sent (snd (fst (interactive_mode wire py_str lower events))))
   <= List.length events)%nat /\
  Forall (prompt_request "http://localhost:8080" 30)
    (st_sent (snd (fst (interactive_mode wire py_str lower events)))).
Proof.
  rewrite interactive_mode_unfold. simpl.
  destruct (interactive_loop_requests wire py_str lower events fresh banner)
    as (Hb & Ht & Hp & new & Hnew & Hlen & Hall).
  simpl in *. rewrite Hb, Ht, Hp, Hnew. by repeat split.
Qed.

(** X16: as long as no line gives a token, the client of the interactive
    mode has none and none of its requests carries an Authorization header. *)
Theorem interactive_mode_without_token (wire : Request -> nat -> wire_event)
    (py_str : pyval -> string) (lower : string -> string)
    (events : list input_event) :
  Forall (λ ev, sets_token lower ev = false) events ->
  token (st_self (snd (fst (interactive_mode wire py_str lower events)))) = None /\
  Forall (λ req, req_headers req !! "Authorization" = None)
    (st_sent (snd (fst (interactive_mode wire py_str lower events)))).
Proof.
  intros Hno. rewrite interactive_mode_unfold. simpl.
  destruct (interactive_loop_token wire py_str lower events fresh banner Hno)
    as (Htok & Hall).
  split; [exact Htok |].
  unfold newly_sent in Hall. simpl in Hall. by rewrite drop_0 in Hall.
Qed.

Lemma interactive_mode_without_token_witness :
  Forall (λ req, req_headers req !! "Authorization" = None)
    (st_sent (snd (fst (interactive_mode (always unauthorized) (λ _, "") (λ x, x)
                          [Typed ["users"]; Typed ["token"]; Typed ["health"]])))).
Proof.
  destruct (interactive_mode_without_token (always unauthorized) (λ _, "")
              (λ x, x) [Typed ["users"]; Typed ["token"]; Typed ["health"]])
    as (_ & H).
  - repeat constructor.
  - exact H.
Defined.
